(** * LLM translator: provider adapters, thinking extraction, history log

    A shallow embedding of [llmtranslate/providers.js] and of the
    [HistoryManager] class, followed by the properties established for them.

    Conventions of the embedding.
    - A JavaScript string is a sequence of UTF-16 code units; the model
      covers the strings whose code units are below 256 and writes one
      [ascii] per code unit.  Message constants are kept as the source
      spells them and are never inspected.
    - [JSON.parse], [fetch] and the response body are the platform's; the
      model takes what they answer as an input ([parser], [network]).
    - Callbacks are recorders: invoking one appends to the effect log and
      never throws.  A response always carries a body to read. *)

From Stdlib Require Import Bool Arith ZArith Lia List Ascii String DecimalString.
Import ListNotations.
Local Open Scope list_scope.
Local Open Scope string_scope.

(* ================================================================== *)
(** * String primitives of the platform *)
(* ================================================================== *)

Module JsString.

(** [s.startsWith(p)] *)
Definition startsWith (s p : string) : bool := String.prefix p s.

(** [s.slice(n)] and [s.substring(n)] for [0 <= n] *)
Fixpoint drop (n : nat) (s : string) : string :=
  match n, s with
  | O, _ => s
  | S _, EmptyString => EmptyString
  | S k, String _ r => drop k r
  end.

(** [s.substring(0, n)] *)
Fixpoint take (n : nat) (s : string) : string :=
  match n, s with
  | O, _ => EmptyString
  | S _, EmptyString => EmptyString
  | S k, String c r => String c (take k r)
  end.

(** [s.substring(a, b)]: the arguments are swapped when [a > b] and
    clamped to the length. *)
Definition substring (s : string) (a b : nat) : string :=
  take (Nat.max a b - Nat.min a b) (drop (Nat.min a b) s).

(** [s.indexOf(p)], [None] standing for [-1] *)
Fixpoint indexOf (s p : string) : option nat :=
  if String.prefix p s then Some 0
  else match s with
       | EmptyString => None
       | String _ r => option_map S (indexOf r p)
       end.

(** [s.lastIndexOf(p)], [None] standing for [-1] *)
Fixpoint lastIndexOf (s p : string) : option nat :=
  match s with
  | EmptyString => if String.prefix p s then Some 0 else None
  | String _ r =>
      match lastIndexOf r p with
      | Some i => Some (S i)
      | None => if String.prefix p s then Some 0 else None
      end
  end.

(** [s.includes(p)] *)
Fixpoint includes (s p : string) : bool :=
  String.prefix p s
  || match s with
     | EmptyString => false
     | String _ r => includes r p
     end.

(** [s.split(sep)] for a one-unit separator: never the empty list. *)
Fixpoint split (sep : ascii) (s : string) : list string :=
  match s with
  | EmptyString => [EmptyString]
  | String c r =>
      if Ascii.eqb c sep then EmptyString :: split sep r
      else match split sep r with
           | [] => [String c EmptyString]
           | l :: ls => String c l :: ls
           end
  end.

(** White space and line terminators below 256: TAB, LF, VT, FF, CR, SP,
    NBSP. *)
Definition isWhiteSpace (c : ascii) : bool :=
  let n := nat_of_ascii c in
  (((9 <=? n) && (n <=? 13)) || (n =? 32) || (n =? 160))%nat.

Fixpoint trimStart (s : string) : string :=
  match s with
  | EmptyString => EmptyString
  | String c r => if isWhiteSpace c then trimStart r else s
  end.

Fixpoint trimEnd (s : string) : string :=
  match s with
  | EmptyString => EmptyString
  | String c r =>
      match trimEnd r with
      | EmptyString => if isWhiteSpace c then EmptyString else String c EmptyString
      | r' => String c r'
      end
  end.

(** [s.trim()] *)
Definition trim (s : string) : string := trimEnd (trimStart s).

(** Lower-casing of one code unit below 256: A-Z and the Latin-1 capitals
    (all of 192..222 but the multiplication sign). *)
Definition lowerUnit (c : ascii) : ascii :=
  let n := nat_of_ascii c in
  if (((65 <=? n) && (n <=? 90))
      || ((192 <=? n) && (n <=? 222) && negb (n =? 215)))%nat
  then ascii_of_nat (n + 32) else c.

(** [s.toLowerCase()] *)
Fixpoint toLowerCase (s : string) : string :=
  match s with
  | EmptyString => EmptyString
  | String c r => String (lowerUnit c) (toLowerCase r)
  end.

(** Case folding of the [i] flag, on the units the patterns use: a unit
    matches an ASCII letter of the pattern when both agree up to ASCII
    case. *)
Definition foldUnit (c : ascii) : ascii :=
  let n := nat_of_ascii c in
  if ((65 <=? n) && (n <=? 90))%nat then ascii_of_nat (n + 32) else c.

Fixpoint prefix_ci (p s : string) : bool :=
  match p, s with
  | EmptyString, _ => true
  | String _ _, EmptyString => false
  | String a p', String b s' =>
      Ascii.eqb (foldUnit a) (foldUnit b) && prefix_ci p' s'
  end.

(** First position at which [p] occurs up to ASCII case. *)
Fixpoint indexOf_ci (s p : string) : option nat :=
  if prefix_ci p s then Some 0
  else match s with
       | EmptyString => None
       | String _ r => option_map S (indexOf_ci r p)
       end.

(** ** Regular expressions with the [g] flag

    A pattern is represented by its matcher: what it matches at the head of
    the remaining input, as the length of the match.  All patterns of the
    program match at least one unit. *)
Definition matcher := string -> option nat.

(** A literal, case-sensitive or folded. *)
Definition lit (p : string) : matcher :=
  fun s => if String.prefix p s then Some (String.length p) else None.

Definition lit_ci (p : string) : matcher :=
  fun s => if prefix_ci p s then Some (String.length p) else None.

(** [/<\/?name>/]: the closing marker, else the opening one. *)
Definition tag (ci : bool) (name : string) : matcher :=
  fun s =>
    let m := if ci then lit_ci else lit in
    match m ("</" ++ name ++ ">") s with
    | Some n => Some n
    | None => m ("<" ++ name ++ ">") s
    end.

(** [/<name>[\s\S]*?<\/name>/i]: an opening marker and the lazily first
    closing marker after it. *)
Definition block (name : string) : matcher :=
  fun s =>
    let o := "<" ++ name ++ ">" in
    let c := "</" ++ name ++ ">" in
    if prefix_ci o s then
      match indexOf_ci (drop (String.length o) s) c with
      | Some k => Some (String.length o + k + String.length c)
      | None => None
      end
    else None.

(** The input cut into the units left alone and the successive matches,
    scanning from the left and resuming after each match. *)
Inductive piece : Type :=
| Unit (c : ascii)
| Hit (m : string).

Fixpoint scan (m : matcher) (skip : nat) (s : string) : list piece :=
  match s with
  | EmptyString => []
  | String c r =>
      match skip with
      | S k => scan m k r
      | O =>
          match m s with
          | Some (S k) => Hit (take (S k) s) :: scan m k r
          | _ => Unit c :: scan m O r
          end
      end
  end.

Definition pieces (m : matcher) (s : string) : list piece := scan m 0 s.

(** The successive values of [match[0]] in a [while (re.exec(s))] loop. *)
Fixpoint hits (ps : list piece) : list string :=
  match ps with
  | [] => []
  | Unit _ :: t => hits t
  | Hit m :: t => m :: hits t
  end.

(** [s.replace(re, f)] with a replacer function. *)
Fixpoint rebuild (f : string -> string) (ps : list piece) : string :=
  match ps with
  | [] => EmptyString
  | Unit c :: t => String c (rebuild f t)
  | Hit m :: t => f m ++ rebuild f t
  end.

Definition replaceWith (m : matcher) (f : string -> string) (s : string) : string :=
  rebuild f (pieces m s).

(** [s.replace(re, '')] *)
Definition remove (m : matcher) (s : string) : string :=
  replaceWith m (fun _ => EmptyString) s.

(** The text a list of pieces stands for. *)
Definition text (ps : list piece) : string := rebuild (fun m => m) ps.

(** Expansion of a replacement string for a pattern without groups
    (GetSubstitution): [$$], [$&], [$`] and [$'] are special, any other
    unit is itself. *)
Fixpoint expand (matched before after rep : string) : string :=
  match rep with
  | EmptyString => EmptyString
  | String c r =>
      if Ascii.eqb c "$" then
        match r with
        | String d r' =>
            if Ascii.eqb d "$" then String "$" (expand matched before after r')
            else if Ascii.eqb d "&" then matched ++ expand matched before after r'
            else if Ascii.eqb d "`" then before ++ expand matched before after r'
            else if Ascii.eqb d "'" then after ++ expand matched before after r'
            else String c (expand matched before after r)
        | EmptyString => String c EmptyString
        end
      else String c (expand matched before after r)
  end.

(** [s.replace(re, rep)] with a replacement string: [before] is the part
    of the subject that precedes the match. *)
Fixpoint substitute (rep before : string) (ps : list piece) : string :=
  match ps with
  | [] => EmptyString
  | Unit c :: t => String c (substitute rep (before ++ String c EmptyString) t)
  | Hit m :: t => expand m before (text t) rep ++ substitute rep (before ++ m) t
  end.

Definition replaceAll (m : matcher) (rep : string) (s : string) : string :=
  substitute rep EmptyString (pieces m s).

(** [`${n}`] for a non-negative integer. *)
Definition decimal (n : nat) : string := NilEmpty.string_of_uint (Nat.to_uint n).

(** [xs.join('')] *)
Definition joined (xs : list string) : string := String.concat EmptyString xs.

End JsString.

(* ================================================================== *)
(** * Values read from JSON *)
(* ================================================================== *)

Module Js.

(** A number is kept as the two observations the program makes of one: its
    [ToString] image and whether it is truthy (neither zero nor NaN). *)
#[local] Unset Elimination Schemes.
Inductive value : Type :=
| Undefined
| Null
| Bool (b : bool)
| Number (shown : string) (nonzero : bool)
| Str (s : string)
| Array (items : list value)
| Object (props : list (string * value)).
#[local] Set Elimination Schemes.

Definition nullish (v : value) : bool :=
  match v with Undefined | Null => true | _ => false end.

(** [ToBoolean] *)
Definition truthy (v : value) : bool :=
  match v with
  | Undefined | Null => false
  | Bool b => b
  | Number _ nz => nz
  | Str s => negb (s =? "")
  | Array _ | Object _ => true
  end.

(** [ToString]; an array joins its elements with commas, a nullish element
    giving the empty string. *)
Fixpoint toString (v : value) : string :=
  match v with
  | Undefined => "undefined"
  | Null => "null"
  | Bool true => "true"
  | Bool false => "false"
  | Number shown _ => shown
  | Str s => s
  | Array items =>
      String.concat ","
        ((fix each (l : list value) : list string :=
            match l with
            | [] => []
            | x :: t => (if nullish x then "" else toString x) :: each t
            end) items)
  | Object _ => "[object Object]"
  end.

Fixpoint lookup (props : list (string * value)) (k : string) : value :=
  match props with
  | [] => Undefined
  | (k', v) :: t => if k' =? k then v else lookup t k
  end.

(** [v.k] for a [v] that is not nullish.  None of the names the program
    reads is inherited from a prototype, so only own properties count. *)
Definition prop (v : value) (k : string) : value :=
  match v with
  | Object props => lookup props k
  | _ => Undefined
  end.

(** [v[0]] for a [v] that is not nullish. *)
Definition first (v : value) : value :=
  match v with
  | Array (x :: _) => x
  | Str (String c _) => Str (String c EmptyString)
  | Object props => lookup props "0"
  | _ => Undefined
  end.

(** [v.k] and [v[0]]: [None] is the [TypeError] raised on [null] and
    [undefined]. *)
Definition get (v : value) (k : string) : option value :=
  if nullish v then None else Some (prop v k).

Definition get0 (v : value) : option value :=
  if nullish v then None else Some (first v).

(** [v?.k] and [v?.[0]] *)
Definition getOpt (v : value) (k : string) : value :=
  if nullish v then Undefined else prop v k.

Definition get0Opt (v : value) : value :=
  if nullish v then Undefined else first v.

(** [v === 'literal'] *)
Definition same (v : value) (s : string) : bool :=
  match v with Str s' => s' =? s | _ => false end.

(** [a || b] *)
Definition orElse (a b : value) : value := if truthy a then a else b.

End Js.

(* ================================================================== *)
(** * Exceptions, the network and the effect log *)
(* ================================================================== *)

(** What a call can throw: [new Error(message)], the engine's [TypeError]
    on reading a property of [null] or [undefined] and on calling a method a
    value lacks, the [SyntaxError] of a body that is not JSON, and whatever
    the platform rejects with (a failed connection, an interrupted read). *)
Inductive exn : Type :=
| Error (message : string)
| TypeError
| SyntaxError
| Raised (name message : string).

Record request : Type := {
  url : string;
  method : string;
  headers : list (string * string);
  body : Js.value                       (* the object given to JSON.stringify *)
}.

(** A response, as the calls observe it: its status, what
    [response.json()] resolves to ([None] when it rejects), the decoded
    chunks [reader.read()] delivers in order, and the exception that ends
    the reading when it does not end by [done]: that of the read after the
    chunks when the transfer breaks, or the [TypeError] of
    [response.body.getReader()] itself when the response has no body
    ([response.body] is [null], as for the statuses 204 and 205): such a
    response has no chunks, [broken] is [Some TypeError] and [json] is
    [None]. *)
Record response : Type := {
  status : nat;
  json : option Js.value;
  chunks : list string;
  broken : option exn
}.

(** [response.ok] *)
Definition ok (r : response) : bool := (200 <=? status r)%nat && (status r <=? 299)%nat.

Inductive reply : Type :=
| Failure (e : exn)
| Answer (r : response).

Definition network := request -> reply.

(** The observable effects of a call, in the order they happen. *)
Inductive effect : Type :=
| Fetch (r : request)
| OnContent (s : string)
| OnReasoning (s : string)
| OnDone (final : string) (reasoning : option string)
| OnError (e : exn).

(** Which callbacks the caller supplied. *)
Record callbacks : Type := {
  onContent : bool;
  onReasoning : bool;
  onDone : bool;
  onError : bool
}.

(** A computation: the effects performed and the exception thrown or the
    value returned. *)
Definition M (A : Type) : Type := (list effect * (exn + A))%type.

Definition ret {A} (a : A) : M A := ([], inr a).

Definition throw {A} (e : exn) : M A := ([], inl e).

Definition bind {A B} (m : M A) (k : A -> M B) : M B :=
  match m with
  | (out, inl e) => (out, inl e)
  | (out, inr a) => let (out', r) := k a in ((out ++ out')%list, r)
  end.

Notation "x <- m ;; k" := (bind m (fun x => k))
  (at level 61, m at next level, right associativity).
Notation "m ;;; k" := (bind m (fun _ => k))
  (at level 61, right associativity).

(** [try { m } catch (error) { h error }] *)
Definition try_catch {A} (m : M A) (h : exn -> M A) : M A :=
  match m with
  | (out, inl e) => let (out', r) := h e in ((out ++ out')%list, r)
  | (out, inr a) => (out, inr a)
  end.

(** [if (callbacks.f) callbacks.f(...)] *)
Definition emit (present : bool) (e : effect) : list effect :=
  if present then [e] else [].

Definition call (present : bool) (e : effect) : M unit := (emit present e, inr tt).

(** [await fetch(...)] *)
Definition fetch (net : network) (r : request) : M response :=
  match net r with
  | Failure e => ([Fetch r], inl e)
  | Answer resp => ([Fetch r], inr resp)
  end.

(** [await response.json()] *)
Definition readJson (r : response) : M Js.value :=
  match json r with
  | Some v => ret v
  | None => throw SyntaxError
  end.

(** A property read that throws on a nullish subject. *)
Definition must (o : option Js.value) : M Js.value :=
  match o with
  | Some v => ret v
  | None => throw TypeError
  end.

(** [for (const x of xs) { ... }] over a body that updates the local state
    and invokes callbacks. *)
Fixpoint forEach {St} (step : St -> string -> St * list effect) (st : St)
    (xs : list string) : St * list effect :=
  match xs with
  | [] => (st, [])
  | x :: t =>
      let (st1, o1) := step st x in
      let (st2, o2) := forEach step st1 t in
      (st2, (o1 ++ o2)%list)
  end.

(** The read loop: every chunk is split at line feeds and each line is
    handled; the loop ends when the reader reports [done], or by the
    exception of a broken transfer. *)
Definition readAll {St} (step : St -> string -> St * list effect) (st : St)
    (chunks : list string) : St * list effect :=
  forEach (fun s chunk => forEach step s (JsString.split "010"%char chunk)) st chunks.

(** [const reader = response.body.getReader()] and the read loop: the
    exception of [broken] is thrown after the chunks, which are none when
    it is the [TypeError] of [getReader] on a response without a body. *)
Definition readLines {St} (step : St -> string -> St * list effect) (st : St)
    (r : response) : M St :=
  let (st', out) := readAll step st (chunks r) in
  match broken r with
  | Some e => (out, inl e)
  | None => (out, inr st')
  end.

(** What the non-2xx branch of the hosted adapters throws:
    [const error = await response.json().catch(() => ({}));
     throw new Error(error.error?.message || `<generic>${response.status}`)]. *)
Definition bodyError (r : response) (generic : string) : exn :=
  let error := match json r with Some v => v | None => Js.Object [] end in
  match Js.get error "error" with
  | None => TypeError
  | Some e =>
      Error (Js.toString
               (Js.orElse (Js.getOpt e "message")
                          (Js.Str (generic ++ JsString.decimal (status r)))))
  end.

(** Provider settings; a missing entry is [None]. *)
Record config : Type := {
  apiKey : option string;
  baseUrl : option string;
  model : option string
}.

(** [!s] and [s || d] on an optional string. *)
Definition missing (s : option string) : bool :=
  match s with
  | None => true
  | Some s => s =? ""
  end.

Definition orDefault (s : option string) (d : string) : string :=
  match s with
  | None => d
  | Some s => if s =? "" then d else s
  end.

(** [JSON.parse]: [None] when it throws. *)
Definition parser := string -> option Js.value.

(* ================================================================== *)
(** * providers.js *)
(* ================================================================== *)

Module BaseProvider.
Import JsString.

Definition languages : list (string * string) :=
  [ ("auto", "auto-detected language"); ("ko", "Korean"); ("en", "English");
    ("ja", "Japanese"); ("zh", "Chinese"); ("es", "Spanish"); ("fr", "French");
    ("de", "German"); ("ru", "Russian"); ("pt", "Portuguese"); ("it", "Italian");
    ("vi", "Vietnamese"); ("th", "Thai"); ("id", "Indonesian"); ("ar", "Arabic") ].

Fixpoint entry (table : list (string * string)) (code : string) : option string :=
  match table with
  | [] => None
  | (k, v) :: t => if k =? code then Some v else entry t code
  end.

(** What an object literal inherits from [Object.prototype]: for these
    names [languages[code]] is not [undefined] although the table has no
    such key.  [replace] calls a function with the match as first argument
    and [undefined] as [this]. *)
Inductive member : Type :=
| Constructor             (* [Object]: wraps the match, which [ToString] gives back *)
| ToString                (* returns [[object Undefined]] *)
| IsPrototypeOf           (* returns [false]: the match is not an object *)
| Method (name : string)  (* needs an object as [this]: throws a [TypeError] *)
| Prototype.              (* [__proto__]: the object [Object.prototype], not a function *)

Definition inherited (code : string) : option member :=
  if code =? "constructor" then Some Constructor
  else if code =? "toString" then Some ToString
  else if code =? "isPrototypeOf" then Some IsPrototypeOf
  else if code =? "__proto__" then Some Prototype
  else if existsb (String.eqb code)
            [ "valueOf"; "hasOwnProperty"; "propertyIsEnumerable"; "toLocaleString";
              "__defineGetter__"; "__defineSetter__"; "__lookupGetter__";
              "__lookupSetter__" ]
  then Some (Method code)
  else None.

(** A value of [languages[code] || code]: a text, or an inherited member
    (a function or an object, hence truthy). *)
Inductive name : Type :=
| Text (s : string)
| Inherited (m : member).

(** [languages[code] || code] *)
Definition getLanguageName (code : string) : name :=
  match entry languages code, inherited code with
  | None, Some m => Inherited m
  | own, _ => Text (orDefault own code)
  end.

(** The member as a replacer, when it is a function: [ToString] of what it
    returns for a match. *)
Definition replacer (m : member) : option (string -> exn + string) :=
  match m with
  | Constructor => Some (fun matched => inr matched)
  | ToString => Some (fun _ => inr "[object Undefined]")
  | IsPrototypeOf => Some (fun _ => inr "false")
  | Method _ => Some (fun _ => inl TypeError)
  | Prototype => None
  end.

(** [s.replace(re, f)] with a replacer function that can throw: it is
    called at each match, from the left. *)
Fixpoint rebuildBy (f : string -> exn + string) (ps : list piece) : exn + string :=
  match ps with
  | [] => inr EmptyString
  | Unit c :: t =>
      match rebuildBy f t with
      | inr r => inr (String c r)
      | inl e => inl e
      end
  | Hit m :: t =>
      match f m with
      | inl e => inl e
      | inr v =>
          match rebuildBy f t with
          | inr r => inr (v ++ r)
          | inl e => inl e
          end
      end
  end.

(** [s.replace(re, value)] for a value of [getLanguageName]: a text is a
    replacement string, a function is a replacer, and the object
    [Object.prototype] is converted to the replacement string
    [[object Object]]. *)
Definition replaceBy (re : matcher) (value : name) (s : string) : exn + string :=
  match value with
  | Text v => inr (replaceAll re v s)
  | Inherited m =>
      match replacer m with
      | Some f => rebuildBy f (pieces re s)
      | None => inr (replaceAll re "[object Object]" s)
      end
  end.

Definition buildPrompt (text sourceLang targetLang userPrompt : string) : exn + string :=
  let sourceLangName := getLanguageName sourceLang in
  let targetLangName := getLanguageName targetLang in
  match replaceBy (lit "{source_lang}") sourceLangName userPrompt with
  | inl e => inl e
  | inr s1 =>
      match replaceBy (lit "{target_lang}") targetLangName s1 with
      | inl e => inl e
      | inr s2 => inr (replaceAll (lit "{text}") text s2)
      end
  end.

(** The text [this.buildPrompt(...)] contributes to the body of a request.
    The calls are modelled for the arguments on which it returns: it throws
    only when the template holds a language placeholder and the language
    code names one of the eight inherited methods that need an object as
    [this]. *)
Definition prompt (text sourceLang targetLang userPrompt : string) : string :=
  match buildPrompt text sourceLang targetLang userPrompt with
  | inr s => s
  | inl _ => EmptyString
  end.

(** The [messages] array of the chat-completions adapters. *)
Definition chatMessages (text sourceLang targetLang systemPrompt userPrompt : string) : Js.value :=
  Js.Array
    [ Js.Object [("role", Js.Str "system"); ("content", Js.Str systemPrompt)];
      Js.Object [("role", Js.Str "user");
                 ("content", Js.Str (prompt text sourceLang targetLang userPrompt))] ].

(** [v.trim()] on what should be a string. *)
Definition trimmed (v : Js.value) : M string :=
  match v with
  | Js.Str s => ret (trim s)
  | _ => throw TypeError
  end.

(** [data.choices[0].message.content.trim()] *)
Definition chatContent (data : Js.value) : M string :=
  choices <- must (Js.get data "choices") ;;
  choice <- must (Js.get0 choices) ;;
  message <- must (Js.get choice "message") ;;
  content <- must (Js.get message "content") ;;
  trimmed content.

(** The body of the chat-completions read loop, shared verbatim by the
    OpenAI and the OpenAI-compatible adapters:
    [if (line.startsWith('data: ')) { const data = line.slice(6);
       if (data === '[DONE]') continue;
       try { ... parsed.choices?.[0]?.delta?.content ... } catch (e) {} }]. *)
Definition chatLine (parse : parser) (cb : callbacks) (fullContent line : string)
  : string * list effect :=
  if startsWith line "data: " then
    let data := drop 6 line in
    if data =? "[DONE]" then (fullContent, [])
    else
      match parse data with
      | None => (fullContent, [])
      | Some parsed =>
          match Js.get parsed "choices" with
          | None => (fullContent, [])
          | Some choices =>
              let delta := Js.getOpt (Js.getOpt (Js.get0Opt choices) "delta") "content" in
              if Js.truthy delta then
                let fullContent := fullContent ++ Js.toString delta in
                (fullContent, emit (onContent cb) (OnContent fullContent))
              else (fullContent, [])
          end
      end
  else (fullContent, []).

(** [catch (error) { if (callbacks.onError) callbacks.onError(error); throw error; }] *)
Definition report {A} (cb : callbacks) (error : exn) : M A :=
  call (onError cb) (OnError error) ;;; throw error.

Definition number (shown : string) : Js.value := Js.Number shown true.

End BaseProvider.

Module OpenAIProvider.
Import JsString BaseProvider.

Definition missingKey : exn := Error "OpenAI API Key가 설정되지 않았습니다.".

Definition endpoint (cfg : config) (stream : bool)
    (text sourceLang targetLang systemPrompt userPrompt : string) : request :=
  let baseUrl := orDefault (baseUrl cfg) "https://api.openai.com/v1" in
  let model := orDefault (model cfg) "gpt-4o-mini" in
  {| url := baseUrl ++ "/chat/completions";
     method := "POST";
     headers := [("Content-Type", "application/json");
                 ("Authorization", "Bearer " ++ orDefault (apiKey cfg) "")];
     body := Js.Object
               ([("model", Js.Str model);
                 ("messages", chatMessages text sourceLang targetLang systemPrompt userPrompt);
                 ("temperature", number "0.3")]
                ++ (if stream then [("stream", Js.Bool true)] else []))%list |}.

Definition translate (net : network) (cfg : config)
    (text sourceLang targetLang systemPrompt userPrompt : string) : M string :=
  if missing (apiKey cfg) then throw missingKey
  else
    response <- fetch net (endpoint cfg false text sourceLang targetLang systemPrompt userPrompt) ;;
    (if negb (ok response) then throw (bodyError response "OpenAI API 오류: ") else ret tt) ;;;
    data <- readJson response ;;
    chatContent data.

Definition translateStream (parse : parser) (net : network) (cfg : config)
    (text sourceLang targetLang systemPrompt userPrompt : string) (cb : callbacks)
  : M string :=
  if missing (apiKey cfg) then throw missingKey
  else
    try_catch
      (response <- fetch net (endpoint cfg true text sourceLang targetLang systemPrompt userPrompt) ;;
       (if negb (ok response) then throw (bodyError response "OpenAI API 오류: ") else ret tt) ;;;
       fullContent <- readLines (chatLine parse cb) "" response ;;
       call (onDone cb) (OnDone (trim fullContent) None) ;;;
       ret (trim fullContent))
      (report cb).

End OpenAIProvider.

Module ClaudeProvider.
Import JsString BaseProvider.

Definition missingKey : exn := Error "Claude API Key가 설정되지 않았습니다.".

Definition endpoint (cfg : config) (stream : bool)
    (text sourceLang targetLang systemPrompt userPrompt : string) : request :=
  let model := orDefault (model cfg) "claude-3-5-sonnet-20241022" in
  {| url := "https://api.anthropic.com/v1/messages";
     method := "POST";
     headers := [("Content-Type", "application/json");
                 ("x-api-key", orDefault (apiKey cfg) "");
                 ("anthropic-version", "2023-06-01");
                 ("anthropic-dangerous-direct-browser-access", "true")];
     body := Js.Object
               ([("model", Js.Str model);
                 ("max_tokens", number (if stream then "16000" else "4096"));
                 ("system", Js.Str systemPrompt);
                 ("messages",
                  Js.Array
                    [Js.Object
                       [("role", Js.Str "user");
                        ("content", Js.Str (prompt text sourceLang targetLang userPrompt))]])]
                ++ (if stream
                    then [("stream", Js.Bool true);
                          ("thinking", Js.Object [("type", Js.Str "enabled");
                                                  ("budget_tokens", number "8000")])]
                    else []))%list |}.

Definition translate (net : network) (cfg : config)
    (text sourceLang targetLang systemPrompt userPrompt : string) : M string :=
  if missing (apiKey cfg) then throw missingKey
  else
    response <- fetch net (endpoint cfg false text sourceLang targetLang systemPrompt userPrompt) ;;
    (if negb (ok response) then throw (bodyError response "Claude API 오류: ") else ret tt) ;;;
    data <- readJson response ;;
    content <- must (Js.get data "content") ;;
    block <- must (Js.get0 content) ;;
    text <- must (Js.get block "text") ;;
    trimmed text.

(** The locals of the read loop. *)
Record locals : Type := {
  fullContent : string;
  fullThinking : string;
  currentBlockType : Js.value
}.

Definition line (parse : parser) (cb : callbacks) (st : locals) (line : string)
  : locals * list effect :=
  if startsWith line "data: " then
    let data := drop 6 line in
    if (data =? "") || (data =? "[DONE]") then (st, [])
    else
      match parse data with
      | None => (st, [])
      | Some parsed =>
          match Js.get parsed "type" with
          | None => (st, [])
          | Some type =>
              let st :=
                if Js.same type "content_block_start"
                then {| fullContent := fullContent st;
                        fullThinking := fullThinking st;
                        currentBlockType := Js.getOpt (Js.prop parsed "content_block") "type" |}
                else st in
              if Js.same type "content_block_delta" then
                let delta := Js.prop parsed "delta" in
                let (st, o1) :=
                  if Js.same (Js.getOpt delta "type") "thinking_delta"
                     && Js.truthy (Js.prop delta "thinking")
                  then
                    let full := fullThinking st ++ Js.toString (Js.prop delta "thinking") in
                    ({| fullContent := fullContent st;
                        fullThinking := full;
                        currentBlockType := currentBlockType st |},
                     emit (onReasoning cb) (OnReasoning full))
                  else (st, []) in
                let (st, o2) :=
                  if Js.same (Js.getOpt delta "type") "text_delta"
                     && Js.truthy (Js.prop delta "text")
                  then
                    let full := fullContent st ++ Js.toString (Js.prop delta "text") in
                    ({| fullContent := full;
                        fullThinking := fullThinking st;
                        currentBlockType := currentBlockType st |},
                     emit (onContent cb) (OnContent full))
                  else (st, []) in
                (st, (o1 ++ o2)%list)
              else (st, [])
          end
      end
  else (st, []).

Definition translateStream (parse : parser) (net : network) (cfg : config)
    (text sourceLang targetLang systemPrompt userPrompt : string) (cb : callbacks)
  : M string :=
  if missing (apiKey cfg) then throw missingKey
  else
    try_catch
      (response <- fetch net (endpoint cfg true text sourceLang targetLang systemPrompt userPrompt) ;;
       (if negb (ok response) then throw (bodyError response "Claude API 오류: ") else ret tt) ;;;
       st <- readLines (line parse cb)
               {| fullContent := ""; fullThinking := ""; currentBlockType := Js.Null |}
               response ;;
       call (onDone cb) (OnDone (trim (fullContent st)) (Some (fullThinking st))) ;;;
       ret (trim (fullContent st)))
      (report cb).

End ClaudeProvider.

Module GeminiProvider.
Import JsString BaseProvider.

Definition missingKey : exn := Error "Gemini API Key가 설정되지 않았습니다.".

Definition endpoint (cfg : config) (stream : bool)
    (text sourceLang targetLang systemPrompt userPrompt : string) : request :=
  let model := orDefault (model cfg) "gemini-2.0-flash-exp" in
  {| url := "https://generativelanguage.googleapis.com/v1beta/models/" ++ model
            ++ (if stream then ":streamGenerateContent?key=" else ":generateContent?key=")
            ++ orDefault (apiKey cfg) ""
            ++ (if stream then "&alt=sse" else "");
     method := "POST";
     headers := [("Content-Type", "application/json")];
     body := Js.Object
               [("system_instruction",
                 Js.Object [("parts", Js.Array [Js.Object [("text", Js.Str systemPrompt)]])]);
                ("contents",
                 Js.Array
                   [Js.Object
                      [("parts",
                        Js.Array
                          [Js.Object
                             [("text",
                               Js.Str (prompt text sourceLang targetLang userPrompt))]])]]);
                ("generationConfig", Js.Object [("temperature", number "0.3")])] |}.

Definition translate (net : network) (cfg : config)
    (text sourceLang targetLang systemPrompt userPrompt : string) : M string :=
  if missing (apiKey cfg) then throw missingKey
  else
    response <- fetch net (endpoint cfg false text sourceLang targetLang systemPrompt userPrompt) ;;
    (if negb (ok response) then throw (bodyError response "Gemini API 오류: ") else ret tt) ;;;
    data <- readJson response ;;
    candidates <- must (Js.get data "candidates") ;;
    candidate <- must (Js.get0 candidates) ;;
    content <- must (Js.get candidate "content") ;;
    parts <- must (Js.get content "parts") ;;
    part <- must (Js.get0 parts) ;;
    text <- must (Js.get part "text") ;;
    trimmed text.

Definition line (parse : parser) (cb : callbacks) (fullContent line : string)
  : string * list effect :=
  if startsWith line "data: " then
    let data := drop 6 line in
    if data =? "" then (fullContent, [])
    else
      match parse data with
      | None => (fullContent, [])
      | Some parsed =>
          match Js.get parsed "candidates" with
          | None => (fullContent, [])
          | Some candidates =>
              let text :=
                Js.getOpt
                  (Js.get0Opt
                     (Js.getOpt (Js.getOpt (Js.get0Opt candidates) "content") "parts"))
                  "text" in
              if Js.truthy text then
                let fullContent := fullContent ++ Js.toString text in
                (fullContent, emit (onContent cb) (OnContent fullContent))
              else (fullContent, [])
          end
      end
  else (fullContent, []).

Definition translateStream (parse : parser) (net : network) (cfg : config)
    (text sourceLang targetLang systemPrompt userPrompt : string) (cb : callbacks)
  : M string :=
  if missing (apiKey cfg) then throw missingKey
  else
    try_catch
      (response <- fetch net (endpoint cfg true text sourceLang targetLang systemPrompt userPrompt) ;;
       (if negb (ok response) then throw (bodyError response "Gemini API 오류: ") else ret tt) ;;;
       fullContent <- readLines (line parse cb) "" response ;;
       call (onDone cb) (OnDone (trim fullContent) None) ;;;
       ret (trim fullContent))
      (report cb).

End GeminiProvider.

Module OllamaProvider.
Import JsString BaseProvider.

Definition refused (r : response) : exn :=
  Error ("Ollama 연결 오류: " ++ decimal (status r) ++ ". 서버가 실행 중인지 확인하세요.").

Definition endpoint (cfg : config) (stream : bool)
    (text sourceLang targetLang systemPrompt userPrompt : string) : request :=
  let baseUrl := orDefault (baseUrl cfg) "http://localhost:11434" in
  let model := orDefault (model cfg) "llama3.2" in
  {| url := baseUrl ++ "/api/chat";
     method := "POST";
     headers := [("Content-Type", "application/json")];
     body := Js.Object
               [("model", Js.Str model);
                ("messages", chatMessages text sourceLang targetLang systemPrompt userPrompt);
                ("stream", Js.Bool stream);
                ("options", Js.Object [("temperature", number "0.3")])] |}.

Definition translate (net : network) (cfg : config)
    (text sourceLang targetLang systemPrompt userPrompt : string) : M string :=
  response <- fetch net (endpoint cfg false text sourceLang targetLang systemPrompt userPrompt) ;;
  (if negb (ok response) then throw (refused response) else ret tt) ;;;
  data <- readJson response ;;
  message <- must (Js.get data "message") ;;
  content <- must (Js.get message "content") ;;
  trimmed content.

Definition line (parse : parser) (cb : callbacks) (fullContent line : string)
  : string * list effect :=
  if trim line =? "" then (fullContent, [])
  else
    match parse line with
    | None => (fullContent, [])
    | Some parsed =>
        match Js.get parsed "message" with
        | None => (fullContent, [])
        | Some message =>
            let content := Js.getOpt message "content" in
            if Js.truthy content then
              let fullContent := fullContent ++ Js.toString content in
              (fullContent, emit (onContent cb) (OnContent fullContent))
            else (fullContent, [])
        end
    end.

Definition translateStream (parse : parser) (net : network) (cfg : config)
    (text sourceLang targetLang systemPrompt userPrompt : string) (cb : callbacks)
  : M string :=
  try_catch
    (response <- fetch net (endpoint cfg true text sourceLang targetLang systemPrompt userPrompt) ;;
     (if negb (ok response) then throw (refused response) else ret tt) ;;;
     fullContent <- readLines (line parse cb) "" response ;;
     call (onDone cb) (OnDone (trim fullContent) None) ;;;
     ret (trim fullContent))
    (report cb).

End OllamaProvider.

Module LlamaCppProvider.
Import JsString BaseProvider.

Definition refused (r : response) : exn :=
  Error ("llama.cpp 연결 오류: " ++ decimal (status r) ++ ". 서버가 실행 중인지 확인하세요.").

Record separated : Type := {
  thinking : string;
  output : string
}.

(** [match[1]] of a match [m] of the block pattern for [name]. *)
Definition inner (name m : string) : string :=
  take (String.length m - (String.length name + 2) - (String.length name + 3))
       (drop (String.length name + 2) m).

Definition separateThinking (text : string) : separated :=
  (* Extract content from complete think blocks *)
  let thinking := joined (map (inner "think") (hits (pieces (block "think") text))) in
  (* Remove complete think blocks from output *)
  let output := remove (block "think") text in
  (* Handle incomplete think block (still streaming) *)
  let openIdx := lastIndexOf output "<think>" in
  let closeIdx := lastIndexOf output "</think>" in
  let (thinking, output) :=
    match openIdx with
    | Some openIdx =>
        if match closeIdx with
           | None => true
           | Some closeIdx => (closeIdx <? openIdx)%nat
           end
        then (thinking ++ drop (openIdx + 7) output, take openIdx output)
        else (thinking, output)
    | None => (thinking, output)
    end in
  (* Clean up any orphan tags *)
  let output := trim (remove (tag true "think") output) in
  (* Also handle <thinking> and <reasoning> tags *)
  let thinking :=
    thinking ++ joined (map (remove (tag true "thinking"))
                            (hits (pieces (block "thinking") output))) in
  let output := remove (block "thinking") output in
  let thinking :=
    thinking ++ joined (map (remove (tag true "reasoning"))
                            (hits (pieces (block "reasoning") output))) in
  let output := remove (block "reasoning") output in
  let output := trim (remove (tag true "reasoning") (remove (tag true "thinking") output)) in
  {| thinking := trim thinking; output := output |}.

(** Filter thinking blocks from text (for non-streaming) *)
Definition filterThinkingBlocks (text : string) : string :=
  output (separateThinking text).

Definition endpoint (cfg : config) (stream : bool)
    (text sourceLang targetLang systemPrompt userPrompt : string) : request :=
  let baseUrl := orDefault (baseUrl cfg) "http://localhost:8080" in
  {| url := baseUrl ++ "/v1/chat/completions";
     method := "POST";
     headers := [("Content-Type", "application/json")];
     body := Js.Object
               ([("messages", chatMessages text sourceLang targetLang systemPrompt userPrompt);
                 ("temperature", number "0.3")]
                ++ (if stream then [("stream", Js.Bool true)] else []))%list |}.

Definition translate (net : network) (cfg : config)
    (text sourceLang targetLang systemPrompt userPrompt : string) : M string :=
  response <- fetch net (endpoint cfg false text sourceLang targetLang systemPrompt userPrompt) ;;
  (if negb (ok response) then throw (refused response) else ret tt) ;;;
  data <- readJson response ;;
  choices <- must (Js.get data "choices") ;;
  choice <- must (Js.get0 choices) ;;
  message <- must (Js.get choice "message") ;;
  rawContent <- must (Js.get message "content") ;;
  match rawContent with
  | Js.Str rawContent => ret (trim (filterThinkingBlocks rawContent))
  | _ => throw TypeError
  end.

(** The [<think>] fallback on the accumulated text, as both the read loop
    and the final cleanup compute it: [None] when there is no opening
    marker, else the pair (thinking, output) before the markers are
    stripped. *)
Definition cut (fullText : string) : option (string * string) :=
  match indexOf fullText "<think>" with
  | Some thinkStart =>
      match indexOf fullText "</think>" with
      | Some thinkEnd =>
          Some (substring fullText (thinkStart + 7) thinkEnd,
                take thinkStart fullText ++ drop (thinkEnd + 8) fullText)
      | None =>
          Some (drop (thinkStart + 7) fullText, take thinkStart fullText)
      end
  | None => None
  end.

(** [s.replace(/<\/?think>/g, '').trim()] *)
Definition clean (s : string) : string := trim (remove (tag false "think") s).

Record locals : Type := {
  fullText : string;
  fullReasoning : string
}.

Definition line (parse : parser) (cb : callbacks) (st : locals) (line : string)
  : locals * list effect :=
  if startsWith line "data: " then
    let data := drop 6 line in
    if data =? "[DONE]" then (st, [])
    else
      match parse data with
      | None => (st, [])
      | Some parsed =>
          match Js.get parsed "choices" with
          | None => (st, [])
          | Some choices =>
              let delta := Js.getOpt (Js.get0Opt choices) "delta" in
              (* Handle reasoning_content from llama.cpp --reasoning-format *)
              let (st, o1) :=
                if Js.truthy (Js.getOpt delta "reasoning_content") then
                  let full := fullReasoning st ++ Js.toString (Js.getOpt delta "reasoning_content") in
                  ({| fullText := fullText st; fullReasoning := full |},
                   emit (onReasoning cb) (OnReasoning full))
                else (st, []) in
              (* Handle regular content *)
              let (st, o2) :=
                if Js.truthy (Js.getOpt delta "content") then
                  let full := fullText st ++ Js.toString (Js.getOpt delta "content") in
                  let st := {| fullText := full; fullReasoning := fullReasoning st |} in
                  match cut full with
                  | Some (thinking, output) =>
                      let output := clean output in
                      let thinking := clean thinking in
                      (st, (emit (negb (thinking =? "") && onReasoning cb) (OnReasoning thinking)
                            ++ emit (onContent cb) (OnContent output))%list)
                  | None => (st, emit (onContent cb) (OnContent full))
                  end
                else (st, []) in
              (st, (o1 ++ o2)%list)
          end
      end
  else (st, []).

Definition translateStream (parse : parser) (net : network) (cfg : config)
    (text sourceLang targetLang systemPrompt userPrompt : string) (cb : callbacks)
  : M string :=
  try_catch
    (response <- fetch net (endpoint cfg true text sourceLang targetLang systemPrompt userPrompt) ;;
     (if negb (ok response) then throw (refused response) else ret tt) ;;;
     st <- readLines (line parse cb) {| fullText := ""; fullReasoning := "" |} response ;;
     (* Final cleanup *)
     let (finalThinking, finalOutput) :=
       match cut (fullText st) with
       | Some p => p
       | None => (fullReasoning st, fullText st)
       end in
     let finalOutput := clean finalOutput in
     let finalThinking := clean finalThinking in
     call (onDone cb) (OnDone finalOutput (Some finalThinking)) ;;;
     ret finalOutput)
    (report cb).

(** An entry of a model list: [{ value, label }]. *)
Record listed : Type := {
  value : Js.value;
  label : Js.value
}.

Definition getDefaultModels : list listed :=
  [ {| value := Js.Str "default"; label := Js.Str "로드된 모델" |} ].

(** The request [fetch(url)] sends when it is given no options. *)
Definition modelsRequest (cfg : config) : request :=
  let baseUrl := orDefault (baseUrl cfg) "http://localhost:8080" in
  {| url := baseUrl ++ "/v1/models"; method := "GET"; headers := []; body := Js.Undefined |}.

(** [data.data.map(m => ({ value: m.id, label: m.id }))]: a [TypeError]
    when [data.data] is not an array or when an element is [null]. *)
Fixpoint listModels (items : list Js.value) : M (list listed) :=
  match items with
  | [] => ret []
  | m :: rest =>
      id <- must (Js.get m "id") ;;
      models <- listModels rest ;;
      ret ({| value := id; label := id |} :: models)
  end.

(** [static async fetchModels(config)]; the message written to the console
    in the [catch] is not modelled. *)
Definition fetchModels (net : network) (cfg : config) : M (list listed) :=
  try_catch
    (response <- fetch net (modelsRequest cfg) ;;
     if negb (ok response) then ret getDefaultModels
     else
       data <- readJson response ;;
       entries <- must (Js.get data "data") ;;
       models <- match entries with
                 | Js.Array items => listModels items
                 | _ => throw TypeError
                 end ;;
       ret (match models with [] => getDefaultModels | _ => models end))
    (fun e => ret getDefaultModels).

End LlamaCppProvider.

Module OpenAICompatibleProvider.
Import JsString BaseProvider.

Definition missingUrl : exn := Error "OpenAI 호환 API의 Base URL이 설정되지 않았습니다.".

Definition endpoint (cfg : config) (stream : bool)
    (text sourceLang targetLang systemPrompt userPrompt : string) : request :=
  let model := orDefault (model cfg) "default" in
  {| url := orDefault (baseUrl cfg) "" ++ "/chat/completions";
     method := "POST";
     headers := ([("Content-Type", "application/json")]
                 ++ (if missing (apiKey cfg) then []
                     else [("Authorization", ("Bearer " ++ orDefault (apiKey cfg) "")%string)]))%list;
     body := Js.Object
               ([("model", Js.Str model);
                 ("messages", chatMessages text sourceLang targetLang systemPrompt userPrompt);
                 ("temperature", number "0.3")]
                ++ (if stream then [("stream", Js.Bool true)] else []))%list |}.

Definition translate (net : network) (cfg : config)
    (text sourceLang targetLang systemPrompt userPrompt : string) : M string :=
  if missing (baseUrl cfg) then throw missingUrl
  else
    response <- fetch net (endpoint cfg false text sourceLang targetLang systemPrompt userPrompt) ;;
    (if negb (ok response) then throw (bodyError response "API 오류: ") else ret tt) ;;;
    data <- readJson response ;;
    chatContent data.

Definition translateStream (parse : parser) (net : network) (cfg : config)
    (text sourceLang targetLang systemPrompt userPrompt : string) (cb : callbacks)
  : M string :=
  if missing (baseUrl cfg) then throw missingUrl
  else
    try_catch
      (response <- fetch net (endpoint cfg true text sourceLang targetLang systemPrompt userPrompt) ;;
       (if negb (ok response) then throw (bodyError response "API 오류: ") else ret tt) ;;;
       fullContent <- readLines (chatLine parse cb) "" response ;;
       call (onDone cb) (OnDone (trim fullContent) None) ;;;
       ret (trim fullContent))
      (report cb).

End OpenAICompatibleProvider.

(* ================================================================== *)
(** * HistoryManager *)
(* ================================================================== *)

Module HistoryManager.
Import JsString.

Record entry : Type := {
  entrySourceLang : string;
  entryTargetLang : string;
  entrySourceText : string;
  entryTargetText : string;
  entryProvider : string;
  entryModel : string
}.

Record item : Type := {
  id : string;
  timestamp : string;
  sourceLang : string;
  targetLang : string;
  sourceText : string;
  targetText : string;
  provider : string;
  model : string
}.

Definition MAX_ITEMS : nat := 100.

(** [add(entry)]: [newId] and [now] are what the clock and the random
    generator give for the identifier and the time stamp.  Returns the new
    value of [this.history] and the stored item; the write to local storage
    that follows is not modelled. *)
Definition add (history : list item) (newId now : string) (e : entry)
  : list item * item :=
  let item :=
    {| id := newId;
       timestamp := now;
       sourceLang := entrySourceLang e;
       targetLang := entryTargetLang e;
       sourceText := entrySourceText e;
       targetText := entryTargetText e;
       provider := entryProvider e;
       model := entryModel e |} in
  (* Add to beginning of array *)
  let history := item :: history in
  (* Limit history size *)
  let history :=
    if (MAX_ITEMS <? List.length history)%nat then firstn MAX_ITEMS history else history in
  (history, item).

(** [remove(id)] *)
Fixpoint without (history : list item) (id0 : string) : option (list item) :=
  match history with
  | [] => None
  | x :: t =>
      if id x =? id0 then Some t
      else option_map (cons x) (without t id0)
  end.

Definition remove (history : list item) (id0 : string) : list item * bool :=
  match without history id0 with
  | Some h => (h, true)
  | None => (history, false)
  end.

Definition clear (history : list item) : list item := [].

(** [search(query)] *)
Definition search (history : list item) (query : string) : list item :=
  if (query =? "") || (trim query =? "") then history
  else
    let lowerQuery := toLowerCase query in
    filter (fun item =>
              includes (toLowerCase (sourceText item)) lowerQuery
              || includes (toLowerCase (targetText item)) lowerQuery)
           history.

(** [get(id)]: [None] stands for [undefined]. *)
Definition get (history : list item) (id0 : string) : option item :=
  List.find (fun item => id item =? id0) history.

(** [`${n}`] for an integer that is not negative. *)
Definition shownCount (n : Z) : string := decimal (Z.to_nat n).

(** [formatTimeAgo(timestamp)]: [now] and [date] are the two times in
    milliseconds, and [localeDate] is what [date.toLocaleDateString('ko-KR')]
    gives. *)
Definition formatTimeAgo (now date : Z) (localeDate : string) : string :=
  let diff := (now - date)%Z in
  let seconds := (diff / 1000)%Z in
  let minutes := (seconds / 60)%Z in
  let hours := (minutes / 60)%Z in
  let days := (hours / 24)%Z in
  if (7 <? days)%Z then localeDate
  else if (0 <? days)%Z then shownCount days ++ "일 전"
  else if (0 <? hours)%Z then shownCount hours ++ "시간 전"
  else if (0 <? minutes)%Z then shownCount minutes ++ "분 전"
  else "방금 전".

End HistoryManager.

(* ================================================================== *)
(** * charuser/script.js *)
(* ================================================================== *)

Module CharUser.
Import JsString.

(** [convertText()] on the values of the three fields; the result is what
    is written to the output field. *)
Definition convertText (input userWord charWord : string) : string :=
  let result := input in
  (* Replace {{user}} (case-insensitive) *)
  let result :=
    if userWord =? "" then result else replaceAll (lit_ci "{{user}}") userWord result in
  (* Replace {{char}} (case-insensitive) *)
  let result :=
    if charWord =? "" then result else replaceAll (lit_ci "{{char}}") charWord result in
  result.

End CharUser.

(* ================================================================== *)
(** * ProviderFactory *)
(* ================================================================== *)

Module ProviderFactory.

(** The classes an instance can belong to. *)
Inductive provider : Type :=
| OpenAI
| Claude
| Gemini
| Ollama
| LlamaCpp
| OpenAICompatible.

(** [ProviderFactory.create(providerType, config)] *)
Definition create (providerType : string) : exn + provider :=
  if providerType =? "openai" then inr OpenAI
  else if providerType =? "claude" then inr Claude
  else if providerType =? "gemini" then inr Gemini
  else if providerType =? "ollama" then inr Ollama
  else if providerType =? "llamacpp" then inr LlamaCpp
  else if providerType =? "openai-compatible" then inr OpenAICompatible
  else inl (Error ("Unknown provider: " ++ providerType)).

(** [instance.translate(...)], dispatched on the class of the instance. *)
Definition translate (p : provider) : network -> config ->
    string -> string -> string -> string -> string -> M string :=
  match p with
  | OpenAI => OpenAIProvider.translate
  | Claude => ClaudeProvider.translate
  | Gemini => GeminiProvider.translate
  | Ollama => OllamaProvider.translate
  | LlamaCpp => LlamaCppProvider.translate
  | OpenAICompatible => OpenAICompatibleProvider.translate
  end.

(** [instance.translateStream(...)] *)
Definition translateStream (p : provider) : parser -> network -> config ->
    string -> string -> string -> string -> string -> callbacks -> M string :=
  match p with
  | OpenAI => OpenAIProvider.translateStream
  | Claude => ClaudeProvider.translateStream
  | Gemini => GeminiProvider.translateStream
  | Ollama => OllamaProvider.translateStream
  | LlamaCpp => LlamaCppProvider.translateStream
  | OpenAICompatible => OpenAICompatibleProvider.translateStream
  end.

End ProviderFactory.

(* ================================================================== *)
(** * Observations on a run *)
(* ================================================================== *)

(** The successive arguments of [onContent], of [onReasoning], of [onError]
    and of [onDone], and the requests sent. *)
Fixpoint contents (log : list effect) : list string :=
  match log with
  | [] => []
  | OnContent s :: t => s :: contents t
  | _ :: t => contents t
  end.

Fixpoint reasonings (log : list effect) : list string :=
  match log with
  | [] => []
  | OnReasoning s :: t => s :: reasonings t
  | _ :: t => reasonings t
  end.

Fixpoint reported (log : list effect) : list exn :=
  match log with
  | [] => []
  | OnError e :: t => e :: reported t
  | _ :: t => reported t
  end.

Fixpoint completions (log : list effect) : list (string * option string) :=
  match log with
  | [] => []
  | OnDone v r :: t => (v, r) :: completions t
  | _ :: t => completions t
  end.

Fixpoint requests (log : list effect) : list request :=
  match log with
  | [] => []
  | Fetch r :: t => r :: requests t
  | _ :: t => requests t
  end.

(** [b] extends [a]: nothing of [a] is retracted. *)
Definition extends (a b : string) : Prop := exists d, b = a ++ d.

(** Each string extends the one before it. *)
Fixpoint appendOnly (l : list string) : Prop :=
  match l with
  | a :: (b :: _) as t => extends a b /\ appendOnly t
  | _ => True
  end.

(** The configuration check a streaming call makes before its [try]. *)
Definition configurationError (p : ProviderFactory.provider) (cfg : config) : option exn :=
  match p with
  | ProviderFactory.OpenAI =>
      if missing (apiKey cfg) then Some OpenAIProvider.missingKey else None
  | ProviderFactory.Claude =>
      if missing (apiKey cfg) then Some ClaudeProvider.missingKey else None
  | ProviderFactory.Gemini =>
      if missing (apiKey cfg) then Some GeminiProvider.missingKey else None
  | ProviderFactory.OpenAICompatible =>
      if missing (baseUrl cfg) then Some OpenAICompatibleProvider.missingUrl else None
  | ProviderFactory.Ollama | ProviderFactory.LlamaCpp => None
  end.

(** ** Sample wire data

    JSON text is written with apostrophes for its quotation marks. *)
Definition wire (s : string) : string :=
  (fix go (s : string) : string :=
     match s with
     | EmptyString => EmptyString
     | String c r => String (if Ascii.eqb c "'" then "034"%char else c) (go r)
     end) s.

Definition LF : string := String "010"%char EmptyString.

(** A chat-completions frame carrying [content]. *)
Definition contentFrame (content : string) : Js.value :=
  Js.Object
    [("choices",
      Js.Array [Js.Object [("delta", Js.Object [("content", Js.Str content)])]])].

(** [JSON.parse] on the payloads the examples use; any other text is
    treated as not being JSON. *)
Definition sampleParse : parser := fun s =>
  if s =? wire "{'choices':[{'delta':{'content':'Hello '}}]}" then
    Some (contentFrame "Hello ")
  else if s =? wire "{'choices':[{'delta':{'content':'<think>'}}]}" then
    Some (contentFrame "<think>")
  else if s =? wire "{'choices':[{'delta':{'content':'x'}}]}" then
    Some (contentFrame "x")
  else None.

Definition allCallbacks : callbacks :=
  {| onContent := true; onReasoning := true; onDone := true; onError := true |}.

Definition sampleConfig : config :=
  {| apiKey := Some "sk-test"; baseUrl := Some "http://host"; model := None |}.

Definition noKeyConfig : config :=
  {| apiKey := None; baseUrl := Some "http://host"; model := None |}.

(** A server that answers 200 with the given chunks. *)
Definition serving (cs : list string) : network :=
  fun _ => Answer {| status := 200; json := None; chunks := cs; broken := None |}.

(** A server that answers 401 with the body [{'error':{'message':'bad key'}}]. *)
Definition unauthorized : network :=
  fun _ =>
    Answer {| status := 401;
              json := Some (Js.Object [("error", Js.Object [("message", Js.Str "bad key")])]);
              chunks := [];
              broken := None |}.

(** A server that answers 204: the response has no body. *)
Definition noContent : network :=
  fun _ => Answer {| status := 204; json := None; chunks := []; broken := Some TypeError |}.


(** A field contains the query when case is ignored: after lower-casing
    both, the query occurs in the field. *)
Definition containsNoCase (field query : string) : Prop :=
  exists a b, JsString.toLowerCase field = a ++ JsString.toLowerCase query ++ b.

(** The content and reasoning callbacks, as opposed to the terminal ones
    and to the requests. *)
Definition isDelta (e : effect) : bool :=
  match e with
  | OnContent _ | OnReasoning _ => true
  | _ => false
  end.

Definition onlyDeltas (out : list effect) : Prop := Forall (fun e => isDelta e = true) out.

(** The text the six [translateStream] methods share once their
    configuration check has passed: the request, the status check with the
    exception [refuse] builds, the read loop over [step] from [init], the
    terminal [onDone] with what [finish] computes, all inside the [try]
    whose [catch] reports and rethrows. *)
Definition streaming {St} (net : network) (req : request) (refuse : response -> exn)
    (step : St -> string -> St * list effect) (init : St)
    (finish : St -> string * option string) (cb : callbacks) : M string :=
  try_catch
    (response <- fetch net req ;;
     (if negb (ok response) then throw (refuse response) else ret tt) ;;;
     st <- readLines step init response ;;
     call (onDone cb) (OnDone (fst (finish st)) (snd (finish st))) ;;;
     ret (fst (finish st)))
    (BaseProvider.report cb).

(** What the llama.cpp adapter shows for an accumulated text. *)
Definition shown (fullText : string) : string :=
  match LlamaCppProvider.cut fullText with
  | Some (_, output) => LlamaCppProvider.clean output
  | None => fullText
  end.

(** ** The parts of [translateStream], per class *)

(** The locals the read loop of a class updates. *)
Definition localsOf (p : ProviderFactory.provider) : Type :=
  match p with
  | ProviderFactory.Claude => ClaudeProvider.locals
  | ProviderFactory.LlamaCpp => LlamaCppProvider.locals
  | _ => string
  end.

Definition initOf (p : ProviderFactory.provider) : localsOf p :=
  match p with
  | ProviderFactory.Claude =>
      {| ClaudeProvider.fullContent := "";
         ClaudeProvider.fullThinking := "";
         ClaudeProvider.currentBlockType := Js.Null |}
  | ProviderFactory.LlamaCpp =>
      {| LlamaCppProvider.fullText := ""; LlamaCppProvider.fullReasoning := "" |}
  | _ => ""
  end.

(** The body of the [for (const line of lines)] loop. *)
Definition lineOf (p : ProviderFactory.provider) (parse : parser) (cb : callbacks)
  : localsOf p -> string -> localsOf p * list effect :=
  match p with
  | ProviderFactory.OpenAI => BaseProvider.chatLine parse cb
  | ProviderFactory.Claude => ClaudeProvider.line parse cb
  | ProviderFactory.Gemini => GeminiProvider.line parse cb
  | ProviderFactory.Ollama => OllamaProvider.line parse cb
  | ProviderFactory.LlamaCpp => LlamaCppProvider.line parse cb
  | ProviderFactory.OpenAICompatible => BaseProvider.chatLine parse cb
  end.

(** The arguments of the terminal [onDone]; the first is also returned. *)
Definition finishOf (p : ProviderFactory.provider) : localsOf p -> string * option string :=
  match p with
  | ProviderFactory.Claude =>
      fun st => (JsString.trim (ClaudeProvider.fullContent st),
                 Some (ClaudeProvider.fullThinking st))
  | ProviderFactory.LlamaCpp =>
      fun st =>
        let (finalThinking, finalOutput) :=
          match LlamaCppProvider.cut (LlamaCppProvider.fullText st) with
          | Some p => p
          | None => (LlamaCppProvider.fullReasoning st, LlamaCppProvider.fullText st)
          end in
        (LlamaCppProvider.clean finalOutput, Some (LlamaCppProvider.clean finalThinking))
  | _ => fun fullContent => (JsString.trim fullContent, None)
  end.

(** The text before the status number in the generic message of the
    adapters that read the error body. *)
Definition genericOf (p : ProviderFactory.provider) : string :=
  match p with
  | ProviderFactory.OpenAI => "OpenAI API 오류: "
  | ProviderFactory.Claude => "Claude API 오류: "
  | ProviderFactory.Gemini => "Gemini API 오류: "
  | _ => "API 오류: "
  end.

(** What the [if (!response.ok)] branch throws. *)
Definition refuseOf (p : ProviderFactory.provider) (r : response) : exn :=
  match p with
  | ProviderFactory.Ollama => OllamaProvider.refused r
  | ProviderFactory.LlamaCpp => LlamaCppProvider.refused r
  | _ => bodyError r (genericOf p)
  end.

(** The request of a call, streaming or not. *)
Definition requestOf (p : ProviderFactory.provider) (cfg : config) (stream : bool)
    (text sourceLang targetLang systemPrompt userPrompt : string) : request :=
  match p with
  | ProviderFactory.OpenAI => OpenAIProvider.endpoint
  | ProviderFactory.Claude => ClaudeProvider.endpoint
  | ProviderFactory.Gemini => GeminiProvider.endpoint
  | ProviderFactory.Ollama => OllamaProvider.endpoint
  | ProviderFactory.LlamaCpp => LlamaCppProvider.endpoint
  | ProviderFactory.OpenAICompatible => OpenAICompatibleProvider.endpoint
  end cfg stream text sourceLang targetLang systemPrompt userPrompt.

(** The line that carries the end-of-stream sentinel. *)
Definition sentinelLine : string := "data: [DONE]".

(** A stream whose first line is the sentinel and whose second line is a
    frame carrying the text x. *)
Definition sentinelThenData : list string :=
  [sentinelLine ++ LF ++ "data: " ++ wire "{'choices':[{'delta':{'content':'x'}}]}" ++ LF].

(** A stream of two frames without any marker: the text Hello followed by
    a space, then the text x. *)
Definition helloThenX : list string :=
  ["data: " ++ wire "{'choices':[{'delta':{'content':'Hello '}}]}" ++ LF;
   "data: " ++ wire "{'choices':[{'delta':{'content':'x'}}]}" ++ LF].

(** A stream of two frames: the text Hello followed by a space, then an
    opening think marker. *)
Definition helloThenThink : list string :=
  ["data: " ++ wire "{'choices':[{'delta':{'content':'Hello '}}]}" ++ LF;
   "data: " ++ wire "{'choices':[{'delta':{'content':'<think>'}}]}" ++ LF].

(** The strings delivered so far are append-only and the accumulated text
    [cur] extends each of them. *)
Definition chain (l : list string) (cur : string) : Prop :=
  appendOnly l /\ Forall (fun s => extends s cur) l.

(** ** Markers in a text *)

(** The pattern matches nowhere in the text. *)
Fixpoint quiet (m : JsString.matcher) (s : string) : bool :=
  match m s with
  | Some _ => false
  | None =>
      match s with
      | EmptyString => true
      | String _ r => quiet m r
      end
  end.

(** No opening or closing marker of any kind, in any case. *)
Definition markerFree (s : string) : bool :=
  quiet (JsString.tag true "think") s
  && quiet (JsString.tag true "thinking") s
  && quiet (JsString.tag true "reasoning") s.

(** The unit [c] does not occur in the text. *)
Fixpoint free (c : ascii) (s : string) : bool :=
  match s with
  | EmptyString => true
  | String x r => negb (Ascii.eqb x c) && free c r
  end.

(** A pattern that can only match at a [<]. *)
Definition anchored (m : JsString.matcher) : Prop :=
  forall s n, m s = Some n -> exists r, s = String "<" r.

(** A text that does not begin with white space. *)
Definition headOk (s : string) : Prop :=
  match s with
  | EmptyString => True
  | String c _ => JsString.isWhiteSpace c = false
  end.

(** ** Textual substitution, as the specification words it

    [p] occurs in [s]. *)
Definition occursIn (p s : string) : Prop := exists a b, s = a ++ p ++ b.

(** [Replaced p v s r]: [r] is [s] with every occurrence of the placeholder
    [p], taken from the left and without overlap, replaced by the value [v].
    Units are compared as they are (case matters), and the inserted value is
    copied, never scanned: after an occurrence the substitution goes on in
    what follows it in [s]. *)
Inductive Replaced (p v : string) : string -> string -> Prop :=
| Replaced_none (s : string) :
    ~ occursIn p s -> Replaced p v s s
| Replaced_hit (a b r : string) :
    (forall a' b', a ++ p ++ b = a' ++ p ++ b' -> String.length a <= String.length a') ->
    Replaced p v b r ->
    Replaced p v (a ++ p ++ b) (a ++ v ++ r).

(** ** Sample history data *)

Definition sampleEntry : HistoryManager.entry :=
  {| HistoryManager.entrySourceLang := "en";
     HistoryManager.entryTargetLang := "ko";
     HistoryManager.entrySourceText := "Hello";
     HistoryManager.entryTargetText := "annyeong";
     HistoryManager.entryProvider := "openai";
     HistoryManager.entryModel := "gpt-4o-mini" |}.

Definition sampleItem (n : string) : HistoryManager.item :=
  {| HistoryManager.id := n;
     HistoryManager.timestamp := "2025-01-01T00:00:00.000Z";
     HistoryManager.sourceLang := "en";
     HistoryManager.targetLang := "ko";
     HistoryManager.sourceText := "Hello";
     HistoryManager.targetText := "annyeong";
     HistoryManager.provider := "openai";
     HistoryManager.model := "gpt-4o-mini" |}.


(** ** Further observations *)

(** The identifier [ProviderFactory.create] knows a class by. *)
Definition identifier (p : ProviderFactory.provider) : string :=
  match p with
  | ProviderFactory.OpenAI => "openai"
  | ProviderFactory.Claude => "claude"
  | ProviderFactory.Gemini => "gemini"
  | ProviderFactory.Ollama => "ollama"
  | ProviderFactory.LlamaCpp => "llamacpp"
  | ProviderFactory.OpenAICompatible => "openai-compatible"
  end.

(** The text a loop hands to [JSON.parse] for a line, if any: the whole
    line when it is not blank in the Ollama loop, what follows the prefix of
    a data line in the others. *)
Definition payloadOf (p : ProviderFactory.provider) (line : string) : option string :=
  match p with
  | ProviderFactory.Ollama => if JsString.trim line =? "" then None else Some line
  | _ => if JsString.startsWith line "data: " then Some (JsString.drop 6 line) else None
  end.

(** A 2xx response that delivers the given chunks and then ends. *)
Definition delivering (cs : list string) : response :=
  {| status := 200; json := None; chunks := cs; broken := None |}.

(** [b] is [a] with some records left out, the order kept. *)
Inductive Sublist {A : Type} : list A -> list A -> Prop :=
| Sublist_nil : Sublist [] []
| Sublist_skip (x : A) (a b : list A) : Sublist a b -> Sublist a (x :: b)
| Sublist_keep (x : A) (a b : list A) : Sublist a b -> Sublist (x :: a) (x :: b).



(** A pattern that can only match at the unit [c]. *)
Definition headed (c : ascii) (m : JsString.matcher) : Prop :=
  forall s n, m s = Some n -> exists r, s = String c r.


(* ================================================================== *)
(** * Strings: basic facts *)
(* ================================================================== *)

Section StringFacts.
Import JsString.

Lemma append_nil_r (s : string) : s ++ "" = s.
Proof. induction s as [|c s IH]; simpl; [reflexivity | now rewrite IH]. Qed.

Lemma append_assoc (a b c : string) : (a ++ b) ++ c = a ++ b ++ c.
Proof. induction a as [|x a IH]; simpl; [reflexivity | now rewrite IH]. Qed.

Lemma append_length (a b : string) :
  String.length (a ++ b) = String.length a + String.length b.
Proof. induction a as [|x a IH]; simpl; [reflexivity | now rewrite IH]. Qed.

Lemma prefix_iff (p s : string) :
  String.prefix p s = true <-> exists r, s = p ++ r.
Proof.
  revert s; induction p as [|a p IH]; intros s.
  - split; [intros _; now exists s | intros _; now destruct s].
  - destruct s as [|b s].
    + split; [discriminate | intros [r Hr]; discriminate].
    + simpl. destruct (ascii_dec a b) as [->|Hne].
      * rewrite IH. split; intros [r Hr]; exists r; [now rewrite Hr | now inversion Hr].
      * split; [discriminate | intros [r Hr]; inversion Hr; congruence].
Qed.

Lemma includes_iff (s p : string) :
  includes s p = true <-> exists a b, s = a ++ p ++ b.
Proof.
  induction s as [|c s IH].
  - cbn [includes]. rewrite orb_false_r, prefix_iff. split.
    + intros [r Hr]. now exists "", r.
    + intros [a [b H]]. destruct a; simpl in H; [now exists b | discriminate].
  - cbn [includes]. rewrite orb_true_iff, IH, prefix_iff. split.
    + intros [[r Hr] | [a [b H]]].
      * now exists "", r.
      * exists (String c a), b. simpl. now rewrite H.
    + intros [a [b H]]. destruct a as [|x a]; simpl in H.
      * left. now exists b.
      * right. inversion H. now exists a, b.
Qed.

Lemma extends_refl (a : string) : extends a a.
Proof. exists "". now rewrite append_nil_r. Qed.

Lemma extends_app (a d : string) : extends a (a ++ d).
Proof. now exists d. Qed.

Lemma extends_trans (a b c : string) : extends a b -> extends b c -> extends a c.
Proof. intros [d ->] [d' ->]. exists (d ++ d'). apply append_assoc. Qed.

Lemma appendOnly_snoc (l : list string) (x : string) :
  appendOnly l -> Forall (fun s => extends s x) l -> appendOnly (l ++ [x])%list.
Proof.
  induction l as [|a l IH]; intros Hl Hall; [exact I|].
  destruct l as [|b l].
  - simpl. split; [now inversion Hall | exact I].
  - destruct Hl as [Hab Hl]. split; [exact Hab|].
    apply IH; [exact Hl | now inversion Hall].
Qed.

End StringFacts.

(* ================================================================== *)
(** * The history log *)
(* ================================================================== *)

Section History.
Import JsString HistoryManager.

Lemma add_unfold (h : list item) (newId now : string) (e : entry) :
  fst (add h newId now e) = snd (add h newId now e) :: firstn (MAX_ITEMS - 1) h.
Proof.
  unfold add. cbn [fst snd].
  destruct (Nat.ltb_spec MAX_ITEMS (List.length (snd (add h newId now e) :: h))) as [Hlt|Hge];
    unfold add in *; cbn [fst snd] in *.
  - match goal with |- context [(?a <? ?b)%nat] => destruct (Nat.ltb_spec a b) as [_|Hc] end.
    + change MAX_ITEMS with (S (MAX_ITEMS - 1)). now rewrite firstn_cons.
    + exfalso. lia.
  - match goal with |- context [(?a <? ?b)%nat] => destruct (Nat.ltb_spec a b) as [Hc|_] end.
    + exfalso. lia.
    + f_equal. symmetry. apply firstn_all2. cbn [List.length] in Hge.
      unfold MAX_ITEMS in *. lia.
Qed.


(** C10.  [search] with a query that is empty or all white space returns
    the whole history; with any other query it returns exactly the stored
    records whose source or target text contains the query when case is
    ignored, in their stored order. *)
Theorem search_finds_matching :
  forall (h : list item) (q : string),
    (trim q = "" -> search h q = h)
    /\ (trim q <> "" ->
        forall f : item -> bool,
          (forall it, f it = true <->
                      containsNoCase (sourceText it) q \/ containsNoCase (targetText it) q) ->
          search h q = filter f h).
Proof.
  intros h q. unfold search. split.
  - intros Hq. rewrite Hq. now rewrite orb_true_r.
  - intros Hq f Hf.
    assert (Hne : (q =? "") || (trim q =? "") = false).
    { apply orb_false_iff. split; apply String.eqb_neq; [|exact Hq].
      intros ->. now apply Hq. }
    rewrite Hne. apply filter_ext. intros it.
    apply eq_true_iff_eq. rewrite Hf, orb_true_iff, !includes_iff. reflexivity.
Qed.


Lemma search_finds_matching_witness :
  search [sampleItem "a"] "  " = [sampleItem "a"]
  /\ search [sampleItem "a"] "heL"
     = filter (fun it => includes (toLowerCase (sourceText it)) (toLowerCase "heL")
                         || includes (toLowerCase (targetText it)) (toLowerCase "heL"))
              [sampleItem "a"].
Proof.
  destruct (search_finds_matching [sampleItem "a"] "  ") as [Hblank _].
  destruct (search_finds_matching [sampleItem "a"] "heL") as [_ Hquery].
  split; [apply Hblank; reflexivity|].
  apply Hquery; [discriminate|].
  intros it. unfold containsNoCase. now rewrite orb_true_iff, !includes_iff.
Defined.

End History.

(* ================================================================== *)
(** * The shape of a streaming call *)
(* ================================================================== *)

Section Streaming.
Import JsString BaseProvider ProviderFactory.

Lemma forEach_Forall {St} (P : effect -> Prop) (step : St -> string -> St * list effect) :
  (forall st x, Forall P (snd (step st x))) ->
  forall xs st, Forall P (snd (forEach step st xs)).
Proof.
  intros Hstep xs; induction xs as [|x xs IH]; intros st; simpl; [constructor|].
  specialize (Hstep st x). destruct (step st x) as [st1 o1]. specialize (IH st1).
  destruct (forEach step st1 xs) as [st2 o2]. simpl in *.
  apply Forall_app; now split.
Qed.

Lemma readAll_Forall {St} (P : effect -> Prop) (step : St -> string -> St * list effect) :
  (forall st x, Forall P (snd (step st x))) ->
  forall cs st, Forall P (snd (readAll step st cs)).
Proof.
  intros Hstep cs st. unfold readAll. apply forEach_Forall.
  intros s chunk. now apply forEach_Forall.
Qed.

(** An invariant of the locals and of the effects so far is kept by the
    loops when every line keeps it. *)
Lemma forEach_invariant {St} (Inv : St -> list effect -> Prop)
    (step : St -> string -> St * list effect) :
  (forall st out x, Inv st out -> Inv (fst (step st x)) (out ++ snd (step st x))%list) ->
  forall xs st out, Inv st out ->
    Inv (fst (forEach step st xs)) (out ++ snd (forEach step st xs))%list.
Proof.
  intros Hstep xs; induction xs as [|x xs IH]; intros st out Hinv; simpl.
  - now rewrite app_nil_r.
  - specialize (Hstep st out x Hinv). destruct (step st x) as [st1 o1]. simpl in Hstep.
    specialize (IH st1 _ Hstep). destruct (forEach step st1 xs) as [st2 o2]. simpl in *.
    now rewrite app_assoc.
Qed.

Lemma readAll_invariant {St} (Inv : St -> list effect -> Prop)
    (step : St -> string -> St * list effect) :
  (forall st out x, Inv st out -> Inv (fst (step st x)) (out ++ snd (step st x))%list) ->
  forall cs st, Inv st [] -> Inv (fst (readAll step st cs)) (snd (readAll step st cs)).
Proof.
  intros Hstep cs st Hinv. unfold readAll.
  apply (forEach_invariant Inv) with (out := []); [|exact Hinv].
  intros s out chunk Hs. now apply forEach_invariant.
Qed.

(** The four ways a streaming call can go once the configuration check has
    passed, with the effects of each. *)
Lemma streaming_cases {St} (net : network) (req : request) (refuse : response -> exn)
    (step : St -> string -> St * list effect) (init : St)
    (finish : St -> string * option string) (cb : callbacks) :
  let run := streaming net req refuse step init finish cb in
  (exists e, net req = Failure e
             /\ run = (Fetch req :: emit (onError cb) (OnError e), inl e))
  \/ (exists r, net req = Answer r /\ ok r = false
                /\ run = (Fetch req :: emit (onError cb) (OnError (refuse r)), inl (refuse r)))
  \/ (exists r e, net req = Answer r /\ ok r = true /\ broken r = Some e
                  /\ run = (Fetch req :: snd (readAll step init (chunks r))
                                      ++ emit (onError cb) (OnError e), inl e)%list)
  \/ (exists r, net req = Answer r /\ ok r = true /\ broken r = None
                /\ let st := fst (readAll step init (chunks r)) in
                   run = (Fetch req :: snd (readAll step init (chunks r))
                                    ++ emit (onDone cb) (OnDone (fst (finish st)) (snd (finish st))),
                          inr (fst (finish st)))%list).
Proof.
  intros run. subst run. unfold streaming, fetch.
  destruct (net req) as [e|r] eqn:Hnet.
  - left. exists e. split; [reflexivity|]. cbn. now rewrite app_nil_r.
  - right. destruct (ok r) eqn:Hok.
    + right. unfold readLines.
      destruct (readAll step init (chunks r)) as [st out] eqn:Hread.
      destruct (broken r) as [e|] eqn:Hbr.
      * left. exists r, e. repeat split; try assumption. cbn. rewrite Hok, Hread, Hbr. cbn.
        now rewrite app_nil_r.
      * right. exists r. repeat split; try assumption. cbn. rewrite Hok, Hread, Hbr. cbn.
        now rewrite !app_nil_r.
    + left. exists r. repeat split; try assumption. cbn. rewrite Hok. cbn. now rewrite app_nil_r.
Qed.

End Streaming.

(** Case analysis on every test of a line handler. *)
Ltac split_line :=
  repeat match goal with
    | |- context [if ?b then _ else _] => destruct b
    | |- context [match ?x with _ => _ end] => destruct x
    end.

Section Adapters.
Import JsString BaseProvider ProviderFactory.

(** Every class runs the shared text after its own configuration check. *)
Lemma translateStream_streaming (p : provider) (parse : parser) (net : network)
    (cfg : config) (text sourceLang targetLang systemPrompt userPrompt : string)
    (cb : callbacks) :
  translateStream p parse net cfg text sourceLang targetLang systemPrompt userPrompt cb
  = match configurationError p cfg with
    | Some e => throw e
    | None =>
        streaming net (requestOf p cfg true text sourceLang targetLang systemPrompt userPrompt)
          (refuseOf p) (lineOf p parse cb) (initOf p) (finishOf p) cb
    end.
Proof.
  destruct p; cbn [translateStream configurationError];
    unfold OpenAIProvider.translateStream, ClaudeProvider.translateStream,
      GeminiProvider.translateStream, OllamaProvider.translateStream,
      LlamaCppProvider.translateStream, OpenAICompatibleProvider.translateStream;
    try (destruct (missing (apiKey cfg)); reflexivity);
    try (destruct (missing (baseUrl cfg)); reflexivity);
    try reflexivity.
  (* llama.cpp: the final cleanup is a pair of locals *)
  unfold streaming. f_equal. unfold bind, requestOf, fetch.
  destruct (net _) as [e|r]; [reflexivity|].
  destruct (negb (ok r)); cbn; [reflexivity|].
  destruct (readLines _ _ r) as [out [e|st]]; [reflexivity|].
  cbn [finishOf]. destruct (match LlamaCppProvider.cut _ with Some p => p | None => _ end).
  reflexivity.
Qed.

Lemma contents_app (a b : list effect) : contents (a ++ b) = (contents a ++ contents b)%list.
Proof. induction a as [|[] a IH]; simpl; congruence. Qed.

Lemma reasonings_app (a b : list effect) :
  reasonings (a ++ b) = (reasonings a ++ reasonings b)%list.
Proof. induction a as [|[] a IH]; simpl; congruence. Qed.

Lemma reported_app (a b : list effect) : reported (a ++ b) = (reported a ++ reported b)%list.
Proof. induction a as [|[] a IH]; simpl; congruence. Qed.

Lemma completions_app (a b : list effect) :
  completions (a ++ b) = (completions a ++ completions b)%list.
Proof. induction a as [|[] a IH]; simpl; congruence. Qed.

Lemma onlyDeltas_silent (out : list effect) :
  onlyDeltas out -> reported out = [] /\ completions out = [] /\ requests out = [].
Proof.
  induction 1 as [|x out Hx _ IH]; [easy|].
  destruct x; try discriminate; exact IH.
Qed.

Lemma emit_delta (b : bool) (e : effect) : isDelta e = true -> onlyDeltas (emit b e).
Proof. intros He. destruct b; simpl; repeat constructor; exact He. Qed.

Lemma onlyDeltas_app (a b : list effect) :
  onlyDeltas a -> onlyDeltas b -> onlyDeltas (a ++ b)%list.
Proof. intros Ha Hb. apply Forall_app. now split. Qed.

Lemma onlyDeltas_nil : onlyDeltas [].
Proof. constructor. Qed.

Create HintDb stream.
#[local] Hint Resolve emit_delta onlyDeltas_app onlyDeltas_nil : stream.

Lemma chatLine_deltas parse cb st x : onlyDeltas (snd (chatLine parse cb st x)).
Proof. unfold chatLine. split_line; cbn [snd]; auto with stream. Qed.

Lemma lineOf_deltas (p : provider) parse cb (st : localsOf p) x :
  onlyDeltas (snd (lineOf p parse cb st x)).
Proof.
  destruct p; cbn [lineOf]; try apply chatLine_deltas.
  - unfold ClaudeProvider.line. split_line; cbn; auto with stream.
  - unfold GeminiProvider.line. split_line; cbn [snd]; auto with stream.
  - unfold OllamaProvider.line. split_line; cbn [snd]; auto with stream.
  - unfold LlamaCppProvider.line.
    destruct (startsWith x "data: "); [|cbn; auto with stream].
    destruct (drop 6 x =? "[DONE]"); [cbn; auto with stream|].
    destruct (parse (drop 6 x)) as [parsed|]; [|cbn; auto with stream].
    destruct (Js.get parsed "choices") as [choices|]; [|cbn; auto with stream].
    destruct (Js.truthy (Js.getOpt (Js.getOpt (Js.get0Opt choices) "delta") "reasoning_content"));
      destruct (Js.truthy (Js.getOpt (Js.getOpt (Js.get0Opt choices) "delta") "content"));
      cbn; try (destruct (LlamaCppProvider.cut _) as [[thinking output]|]; cbn);
      auto 6 with stream.
Qed.

Lemma stream_deltas (p : provider) parse cb cs :
  onlyDeltas (snd (readAll (lineOf p parse cb) (initOf p) cs)).
Proof. apply readAll_Forall. intros st x. apply lineOf_deltas. Qed.

End Adapters.

(* ================================================================== *)
(** * Errors of a call *)
(* ================================================================== *)

Section Errors.
Import JsString BaseProvider ProviderFactory.

(** C5.  For the three classes that require an API key (OpenAI, Claude,
    Gemini), [translate] and [translateStream] called with a configuration
    whose [apiKey] is absent (or empty) fail with the class's missing-key
    error and an empty effect log: no request is sent, whatever the
    network would have answered, and no callback is invoked. *)
Theorem missing_key_fails_before_any_request :
  forall (parse : parser) (net : network) (cfg : config)
         (text sourceLang targetLang systemPrompt userPrompt : string) (cb : callbacks),
    missing (apiKey cfg) = true ->
    (OpenAIProvider.translate net cfg text sourceLang targetLang systemPrompt userPrompt
       = ([], inl OpenAIProvider.missingKey)
     /\ OpenAIProvider.translateStream parse net cfg text sourceLang targetLang systemPrompt
          userPrompt cb = ([], inl OpenAIProvider.missingKey))
    /\ (ClaudeProvider.translate net cfg text sourceLang targetLang systemPrompt userPrompt
          = ([], inl ClaudeProvider.missingKey)
        /\ ClaudeProvider.translateStream parse net cfg text sourceLang targetLang systemPrompt
             userPrompt cb = ([], inl ClaudeProvider.missingKey))
    /\ (GeminiProvider.translate net cfg text sourceLang targetLang systemPrompt userPrompt
          = ([], inl GeminiProvider.missingKey)
        /\ GeminiProvider.translateStream parse net cfg text sourceLang targetLang systemPrompt
             userPrompt cb = ([], inl GeminiProvider.missingKey)).
Proof.
  intros parse net cfg text sourceLang targetLang systemPrompt userPrompt cb Hkey.
  unfold OpenAIProvider.translate, OpenAIProvider.translateStream,
    ClaudeProvider.translate, ClaudeProvider.translateStream,
    GeminiProvider.translate, GeminiProvider.translateStream.
  rewrite Hkey. repeat split; reflexivity.
Qed.

Lemma missing_key_fails_before_any_request_witness :
  (OpenAIProvider.translate unauthorized noKeyConfig "Hi" "en" "ko" "sys" "{text}"
     = ([], inl OpenAIProvider.missingKey)
   /\ OpenAIProvider.translateStream sampleParse unauthorized noKeyConfig "Hi" "en" "ko" "sys"
        "{text}" allCallbacks = ([], inl OpenAIProvider.missingKey))
  /\ (ClaudeProvider.translate unauthorized noKeyConfig "Hi" "en" "ko" "sys" "{text}"
        = ([], inl ClaudeProvider.missingKey)
      /\ ClaudeProvider.translateStream sampleParse unauthorized noKeyConfig "Hi" "en" "ko" "sys"
           "{text}" allCallbacks = ([], inl ClaudeProvider.missingKey))
  /\ (GeminiProvider.translate unauthorized noKeyConfig "Hi" "en" "ko" "sys" "{text}"
        = ([], inl GeminiProvider.missingKey)
      /\ GeminiProvider.translateStream sampleParse unauthorized noKeyConfig "Hi" "en" "ko" "sys"
           "{text}" allCallbacks = ([], inl GeminiProvider.missingKey)).
Proof.
  apply (missing_key_fails_before_any_request sampleParse unauthorized noKeyConfig
           "Hi" "en" "ko" "sys" "{text}" allCallbacks).
  reflexivity.
Defined.




(** A response without a body: [getReader] throws inside the [try], so the
    [TypeError] is reported and the call fails, as any error after the
    configuration check. *)
Example response_without_body_is_reported :
  OpenAIProvider.translateStream sampleParse noContent sampleConfig
    "Hi" "en" "ko" "sys" "{text}" allCallbacks
  = ([Fetch (requestOf OpenAI sampleConfig true "Hi" "en" "ko" "sys" "{text}");
      OnError TypeError], inl TypeError).
Proof. reflexivity. Qed.

End Errors.

Section Status.
Import JsString BaseProvider ProviderFactory.





End Status.

Section Sentinel.
Import JsString BaseProvider ProviderFactory.

Lemma forEach_app {St} (step : St -> string -> St * list effect) (xs ys : list string) (st : St) :
  forEach step st (xs ++ ys)
  = (fst (forEach step (fst (forEach step st xs)) ys),
     (snd (forEach step st xs) ++ snd (forEach step (fst (forEach step st xs)) ys))%list).
Proof.
  revert st; induction xs as [|x xs IH]; intros st; simpl.
  - now destruct (forEach step st ys).
  - destruct (step st x) as [st1 o1]. rewrite IH.
    destruct (forEach step st1 xs) as [st2 o2]; simpl.
    now rewrite app_assoc.
Qed.

(** A line that changes nothing and emits nothing can be left out. *)
Lemma forEach_skip {St} (step : St -> string -> St * list effect) (x : string) :
  (forall st, step st x = (st, [])) ->
  forall before after st,
    forEach step st (before ++ x :: after) = forEach step st (before ++ after).
Proof.
  intros Hx before after st. rewrite !forEach_app. simpl. rewrite Hx.
  now destruct (forEach step (fst (forEach step st before)) after).
Qed.

Lemma sentinel_line (p : provider) (parse : parser) (cb : callbacks) :
  match p with
  | Gemini => parse "[DONE]" = None
  | Ollama => parse sentinelLine = None
  | _ => True
  end ->
  forall st, lineOf p parse cb st sentinelLine = (st, []).
Proof.
  intros Hp st. destruct p; cbn [lineOf]; try reflexivity.
  - unfold GeminiProvider.line. cbn. now rewrite Hp.
  - unfold OllamaProvider.line.
    replace (trim sentinelLine =? "") with false by reflexivity.
    now rewrite Hp.
Qed.

(** C6, as the code has it.  A line carrying the sentinel changes no local
    and invokes no callback: the lines of a chunk are handled exactly as if
    the sentinel line were not among them, the lines after it included.  This
    holds by an explicit test in the OpenAI, Claude, llama.cpp and
    OpenAI-compatible loops, and in the Gemini and Ollama loops because the
    sentinel is not JSON.  When a streaming call returns, [onDone], when
    supplied, has been invoked exactly once, with the returned text, as the
    last effect, [onError] has not been invoked, and every effect between the
    request and [onDone] is a content or reasoning callback. *)
Theorem sentinel_dropped_and_done_once :
  forall (p : provider) (parse : parser) (cb : callbacks),
    (match p with
     | Gemini => parse "[DONE]" = None
     | Ollama => parse sentinelLine = None
     | _ => True
     end ->
     forall (st : localsOf p) (before after : list string),
       lineOf p parse cb st sentinelLine = (st, [])
       /\ forEach (lineOf p parse cb) st (before ++ sentinelLine :: after)
          = forEach (lineOf p parse cb) st (before ++ after))
    /\ (forall (net : network) (cfg : config)
               (text sourceLang targetLang systemPrompt userPrompt : string)
               (log : list effect) (v : string),
           onDone cb = true ->
           translateStream p parse net cfg text sourceLang targetLang systemPrompt userPrompt cb
             = (log, inr v) ->
           exists out reasoning,
             onlyDeltas out
             /\ log = (Fetch (requestOf p cfg true text sourceLang targetLang systemPrompt
                                userPrompt) :: out ++ [OnDone v reasoning])%list
             /\ completions log = [(v, reasoning)]
             /\ reported log = []).
Proof.
  intros p parse cb. split.
  - intros Hp st before after. split; [now apply sentinel_line|].
    apply forEach_skip. now apply sentinel_line.
  - intros net cfg text sourceLang targetLang systemPrompt userPrompt log v Hcb Hrun.
    rewrite translateStream_streaming in Hrun.
    destruct (configurationError p cfg) as [e'|]; [discriminate|].
    pose proof (stream_deltas p parse cb) as Hout.
    destruct (streaming_cases net
                (requestOf p cfg true text sourceLang targetLang systemPrompt userPrompt)
                (refuseOf p) (lineOf p parse cb) (initOf p) (finishOf p) cb)
      as [(e0 & _ & H) | [(r & _ & _ & H) | [(r & e0 & _ & _ & _ & H) | (r & _ & _ & _ & H)]]];
      cbv zeta in H; rewrite H in Hrun; inversion Hrun; subst; clear Hrun.
    rewrite Hcb. cbn [emit].
    destruct (onlyDeltas_silent _ (Hout (chunks r))) as (Hr & Hc & _).
    eexists _, _. split; [apply Hout|]. split; [reflexivity|].
    cbn [reported completions]. rewrite reported_app, completions_app, Hr, Hc.
    split; reflexivity.
Qed.

Lemma sentinel_dropped_and_done_once_witness :
  (lineOf Gemini sampleParse allCallbacks "seen" sentinelLine = ("seen", [])
   /\ forEach (lineOf Gemini sampleParse allCallbacks) "seen" ([""] ++ sentinelLine :: [""])
      = forEach (lineOf Gemini sampleParse allCallbacks) "seen" ([""] ++ [""]))
  /\ exists out reasoning,
      onlyDeltas out
      /\ fst (translateStream OpenAI sampleParse (serving sentinelThenData) sampleConfig
                "Hi" "en" "ko" "sys" "{text}" allCallbacks)
         = (Fetch (requestOf OpenAI sampleConfig true "Hi" "en" "ko" "sys" "{text}")
            :: out ++ [OnDone "x" reasoning])%list
      /\ completions
           (fst (translateStream OpenAI sampleParse (serving sentinelThenData) sampleConfig
                   "Hi" "en" "ko" "sys" "{text}" allCallbacks))
         = [("x", reasoning)]
      /\ reported
           (fst (translateStream OpenAI sampleParse (serving sentinelThenData) sampleConfig
                   "Hi" "en" "ko" "sys" "{text}" allCallbacks))
         = [].
Proof.
  split.
  - exact (proj1 (sentinel_dropped_and_done_once Gemini sampleParse allCallbacks)
             eq_refl "seen" [""] [""]).
  - exact (proj2 (sentinel_dropped_and_done_once OpenAI sampleParse allCallbacks)
             (serving sentinelThenData) sampleConfig "Hi" "en" "ko" "sys" "{text}" _ "x"
             eq_refl eq_refl).
Defined.

(** C6 as stated fails: on a stream whose first line is the sentinel and
    whose second line is a content frame, [onContent] is invoked after the
    sentinel has been seen. *)
Lemma content_after_sentinel :
  fst (OpenAIProvider.translateStream sampleParse (serving sentinelThenData) sampleConfig
         "Hi" "en" "ko" "sys" "{text}" allCallbacks)
  = [Fetch (OpenAIProvider.endpoint sampleConfig true "Hi" "en" "ko" "sys" "{text}");
     OnContent "x"; OnDone "x" None]
  /\ contents
       (fst (OpenAIProvider.translateStream sampleParse (serving sentinelThenData) sampleConfig
               "Hi" "en" "ko" "sys" "{text}" allCallbacks))
     <> [].
Proof. split; [reflexivity | discriminate]. Qed.

End Sentinel.

(* ================================================================== *)
(** * What the content and reasoning callbacks receive *)
(* ================================================================== *)

Section Monotone.
Import JsString BaseProvider ProviderFactory.

Lemma chain_nil (cur : string) : chain [] cur.
Proof. split; constructor. Qed.

Lemma chain_grow (l : list string) (cur d : string) : chain l cur -> chain l (cur ++ d).
Proof.
  intros [Ha Hf]. split; [exact Ha|].
  eapply Forall_impl; [|exact Hf]. intros s Hs.
  eapply extends_trans; [exact Hs | apply extends_app].
Qed.

Lemma chain_push (l : list string) (cur : string) : chain l cur -> chain (l ++ [cur]) cur.
Proof.
  intros [Ha Hf]. split.
  - now apply appendOnly_snoc.
  - apply Forall_app. split; [exact Hf|]. constructor; [apply extends_refl | constructor].
Qed.

(** Appending a delta and delivering the new accumulated text, when the
    callback is supplied, keeps the chain. *)
Lemma chain_emit (l : list string) (cur d : string) (b : bool) :
  chain l cur -> chain (l ++ (if b then [(cur ++ d)%string] else []))%list (cur ++ d).
Proof.
  intros H. destruct b.
  - apply chain_push. now apply chain_grow.
  - rewrite app_nil_r. now apply chain_grow.
Qed.

Lemma contents_emit (b : bool) (s : string) :
  contents (emit b (OnContent s)) = if b then [s] else [].
Proof. now destruct b. Qed.

Lemma reasonings_emit (b : bool) (s : string) :
  reasonings (emit b (OnReasoning s)) = if b then [s] else [].
Proof. now destruct b. Qed.

Lemma contents_emit_reasoning (b : bool) (s : string) : contents (emit b (OnReasoning s)) = [].
Proof. now destruct b. Qed.

Lemma reasonings_emit_content (b : bool) (s : string) : reasonings (emit b (OnContent s)) = [].
Proof. now destruct b. Qed.

(** The invariant of the loops that accumulate one text. *)
Lemma single_text_step (step : string -> string -> string * list effect) (cb : callbacks) :
  (forall st x, step st x = (st, [])
                \/ exists d, step st x = (st ++ d, emit (onContent cb) (OnContent (st ++ d)))) ->
  forall st out x,
    chain (contents out) st /\ reasonings out = [] ->
    chain (contents (out ++ snd (step st x))) (fst (step st x))
    /\ reasonings (out ++ snd (step st x)) = [].
Proof.
  intros Hstep st out x [Hc Hr]. destruct (Hstep st x) as [H | [d H]]; rewrite H; cbn [fst snd].
  - now rewrite app_nil_r.
  - rewrite contents_app, reasonings_app, contents_emit, reasonings_emit_content, Hr.
    split; [now apply chain_emit | reflexivity].
Qed.

Lemma chatLine_step parse cb st x :
  chatLine parse cb st x = (st, [])
  \/ exists d, chatLine parse cb st x = (st ++ d, emit (onContent cb) (OnContent (st ++ d))).
Proof. unfold chatLine. split_line; eauto. Qed.

Lemma gemini_step parse cb st x :
  GeminiProvider.line parse cb st x = (st, [])
  \/ exists d, GeminiProvider.line parse cb st x
               = (st ++ d, emit (onContent cb) (OnContent (st ++ d))).
Proof. unfold GeminiProvider.line. split_line; eauto. Qed.

Lemma ollama_step parse cb st x :
  OllamaProvider.line parse cb st x = (st, [])
  \/ exists d, OllamaProvider.line parse cb st x
               = (st ++ d, emit (onContent cb) (OnContent (st ++ d))).
Proof. unfold OllamaProvider.line. split_line; eauto. Qed.

Lemma single_text_stream (step : string -> string -> string * list effect) (cb : callbacks) :
  (forall st x, step st x = (st, [])
                \/ exists d, step st x = (st ++ d, emit (onContent cb) (OnContent (st ++ d)))) ->
  forall cs,
    appendOnly (contents (snd (readAll step "" cs)))
    /\ appendOnly (reasonings (snd (readAll step "" cs))).
Proof.
  intros Hstep cs.
  destruct (readAll_invariant
              (fun st out => chain (contents out) st /\ reasonings out = [])
              step (single_text_step step cb Hstep) cs "") as [[Ha _] Hr].
  - split; [apply chain_nil | reflexivity].
  - split; [exact Ha | now rewrite Hr].
Qed.

(** The Claude loop accumulates two texts. *)
Lemma claude_stream parse cb cs :
  appendOnly (contents (snd (readAll (ClaudeProvider.line parse cb) (initOf Claude) cs)))
  /\ appendOnly (reasonings (snd (readAll (ClaudeProvider.line parse cb) (initOf Claude) cs))).
Proof.
  destruct (readAll_invariant
              (fun st out => chain (contents out) (ClaudeProvider.fullContent st)
                             /\ chain (reasonings out) (ClaudeProvider.fullThinking st))
              (ClaudeProvider.line parse cb)) with (cs := cs) (st := initOf Claude)
    as [[Ha _] [Hb _]].
  - intros st out x [Hc Hr]. unfold ClaudeProvider.line.
    split_line; cbn [fst snd ClaudeProvider.fullContent ClaudeProvider.fullThinking];
      rewrite ?app_nil_r, ?contents_app, ?reasonings_app, ?contents_emit, ?reasonings_emit,
        ?contents_emit_reasoning, ?reasonings_emit_content, ?app_nil_r;
      cbn [app]; rewrite ?app_nil_r;
      split; try assumption; try (now apply chain_emit).
  - split; apply chain_nil.
  - now split.
Qed.

(** A line of the llama.cpp loop either leaves the accumulated text alone
    and delivers no content, or extends it and delivers its view. *)
Lemma llama_step parse cb st x :
  (LlamaCppProvider.fullText (fst (LlamaCppProvider.line parse cb st x))
   = LlamaCppProvider.fullText st
   /\ contents (snd (LlamaCppProvider.line parse cb st x)) = [])
  \/ exists d,
      LlamaCppProvider.fullText (fst (LlamaCppProvider.line parse cb st x))
      = LlamaCppProvider.fullText st ++ d
      /\ contents (snd (LlamaCppProvider.line parse cb st x))
         = if onContent cb then [shown (LlamaCppProvider.fullText st ++ d)] else [].
Proof.
  unfold LlamaCppProvider.line.
  destruct (startsWith x "data: "); [|now left].
  destruct (drop 6 x =? "[DONE]"); [now left|].
  destruct (parse (drop 6 x)) as [parsed|]; [|now left].
  destruct (Js.get parsed "choices") as [choices|]; [|now left].
  set (delta := Js.getOpt (Js.get0Opt choices) "delta").
  destruct (Js.truthy (Js.getOpt delta "reasoning_content"));
    destruct (Js.truthy (Js.getOpt delta "content"));
    cbn [LlamaCppProvider.fullText LlamaCppProvider.fullReasoning];
    try (left; cbn [fst snd LlamaCppProvider.fullText];
         rewrite ?contents_app, ?contents_emit_reasoning; now split);
    right; exists (Js.toString (Js.getOpt delta "content")); unfold shown;
    destruct (LlamaCppProvider.cut _) as [[thinking output]|];
    cbn [fst snd LlamaCppProvider.fullText];
    rewrite ?contents_app, ?contents_emit_reasoning, ?contents_emit; now split.
Qed.

(** The llama.cpp loop delivers views of an append-only accumulated text. *)
Lemma llama_stream parse cb cs :
  exists texts,
    appendOnly texts
    /\ contents (snd (readAll (LlamaCppProvider.line parse cb) (initOf LlamaCpp) cs))
       = map shown texts.
Proof.
  destruct (readAll_invariant
              (fun st out => exists texts,
                   chain texts (LlamaCppProvider.fullText st)
                   /\ contents out = map shown texts)
              (LlamaCppProvider.line parse cb)) with (cs := cs) (st := initOf LlamaCpp)
    as (texts & [Ha _] & Hc).
  - intros st out x (texts & Hch & Hc). rewrite contents_app, Hc.
    destruct (llama_step parse cb st x) as [[Hf Ho] | (d & Hf & Ho)]; rewrite Hf, Ho.
    + exists texts. split; [exact Hch | now rewrite app_nil_r].
    + exists (texts ++ (if onContent cb
                        then [(LlamaCppProvider.fullText st ++ d)%string] else []))%list.
      split; [now apply chain_emit|].
      rewrite map_app. now destruct (onContent cb).
  - exists []. split; [apply chain_nil | reflexivity].
  - now exists texts.
Qed.

(** The content and reasoning callbacks of a streaming call are those of
    its read loop on some list of chunks (none when the loop is not
    reached). *)
Lemma stream_deliveries (p : provider) (parse : parser) (net : network) (cfg : config)
    (text sourceLang targetLang systemPrompt userPrompt : string) (cb : callbacks) :
  exists cs,
    let log := fst (translateStream p parse net cfg text sourceLang targetLang systemPrompt
                      userPrompt cb) in
    let out := snd (readAll (lineOf p parse cb) (initOf p) cs) in
    contents log = contents out /\ reasonings log = reasonings out.
Proof.
  rewrite translateStream_streaming.
  destruct (configurationError p cfg) as [e'|]; [now exists []|].
  destruct (streaming_cases net
              (requestOf p cfg true text sourceLang targetLang systemPrompt userPrompt)
              (refuseOf p) (lineOf p parse cb) (initOf p) (finishOf p) cb)
    as [(e0 & _ & H) | [(r & _ & _ & H) | [(r & e0 & _ & _ & _ & H) | (r & _ & _ & _ & H)]]];
    cbv zeta in H; rewrite H; cbn [fst].
  - exists []. now destruct (onError cb).
  - exists []. now destruct (onError cb).
  - exists (chunks r). cbn [contents reasonings].
    rewrite contents_app, reasonings_app. destruct (onError cb); cbn; now rewrite !app_nil_r.
  - exists (chunks r). cbn [contents reasonings].
    rewrite contents_app, reasonings_app. destruct (onDone cb); cbn; now rewrite !app_nil_r.
Qed.

(** C1, as the code has it.  In the OpenAI, Claude, Gemini, Ollama and
    OpenAI-compatible classes the successive arguments of [onContent], and
    those of [onReasoning], are append-only: each extends the one before it.
    In the llama.cpp class the accumulated text is append-only, and each
    argument of [onContent] is what [shown] makes of the accumulated text at
    that point (the text itself until it holds an opening think marker, then
    the text with the think part cut out, the markers stripped, and
    trimmed). *)
Theorem deliveries_append_only :
  forall (p : provider) (parse : parser) (net : network) (cfg : config)
         (text sourceLang targetLang systemPrompt userPrompt : string) (cb : callbacks),
    let log := fst (translateStream p parse net cfg text sourceLang targetLang systemPrompt
                      userPrompt cb) in
    match p with
    | LlamaCpp => exists texts, appendOnly texts /\ contents log = map shown texts
    | _ => appendOnly (contents log) /\ appendOnly (reasonings log)
    end.
Proof.
  intros p parse net cfg text sourceLang targetLang systemPrompt userPrompt cb log.
  destruct (stream_deliveries p parse net cfg text sourceLang targetLang systemPrompt
              userPrompt cb) as (cs & Hc & Hr).
  fold log in Hc, Hr. destruct p; cbn [lineOf initOf] in Hc, Hr; rewrite Hc, ?Hr.
  - apply (single_text_stream _ cb (chatLine_step parse cb)).
  - apply claude_stream.
  - apply (single_text_stream _ cb (gemini_step parse cb)).
  - apply (single_text_stream _ cb (ollama_step parse cb)).
  - apply llama_stream.
  - apply (single_text_stream _ cb (chatLine_step parse cb)).
Qed.

(** C1 as stated fails for the llama.cpp class: when the text Hello followed
    by a space is delivered and an opening think marker arrives next, the
    second argument of [onContent] is Hello without the space, which does
    not extend the first. *)
Lemma llamacpp_content_retracted :
  contents (fst (LlamaCppProvider.translateStream sampleParse (serving helloThenThink)
                   sampleConfig "Hi" "en" "ko" "sys" "{text}" allCallbacks))
  = ["Hello "; "Hello"]
  /\ ~ appendOnly
        (contents (fst (LlamaCppProvider.translateStream sampleParse (serving helloThenThink)
                          sampleConfig "Hi" "en" "ko" "sys" "{text}" allCallbacks))).
Proof.
  split; [reflexivity|].
  intros [[d Hd] _]. cbn in Hd. discriminate.
Qed.

End Monotone.

(* ================================================================== *)
(** * Trimming and pattern matching *)
(* ================================================================== *)

Section Patterns.
Import JsString.

Lemma trimStart_headOk (s : string) : headOk (trimStart s).
Proof.
  induction s as [|c s IH]; simpl; [exact I|].
  destruct (isWhiteSpace c) eqn:Hc; [exact IH | exact Hc].
Qed.

Lemma headOk_trimStart (s : string) : headOk s -> trimStart s = s.
Proof. destruct s as [|c s]; simpl; [reflexivity | now intros ->]. Qed.

Lemma headOk_trimEnd (s : string) : headOk s -> headOk (trimEnd s).
Proof.
  destruct s as [|c s]; simpl; [easy|]. intros Hc.
  destruct (trimEnd s); [now rewrite Hc | exact Hc].
Qed.

Lemma trimEnd_cons (c : ascii) (r : string) :
  trimEnd (String c r)
  = match trimEnd r with
    | EmptyString => if isWhiteSpace c then EmptyString else String c EmptyString
    | r' => String c r'
    end.
Proof. reflexivity. Qed.

Lemma trimEnd_idem (s : string) : trimEnd (trimEnd s) = trimEnd s.
Proof.
  induction s as [|c s IH]; [reflexivity|].
  rewrite (trimEnd_cons c s).
  destruct (trimEnd s) as [|x r] eqn:Hr.
  - destruct (isWhiteSpace c) eqn:Hc; [reflexivity|].
    rewrite trimEnd_cons. cbn [trimEnd]. now rewrite Hc.
  - rewrite trimEnd_cons, IH. reflexivity.
Qed.

Lemma trim_idem (s : string) : trim (trim s) = trim s.
Proof.
  unfold trim. rewrite (headOk_trimStart (trimEnd (trimStart s))).
  - apply trimEnd_idem.
  - apply headOk_trimEnd, trimStart_headOk.
Qed.

Lemma free_app (c : ascii) (a b : string) :
  free c (a ++ b) = free c a && free c b.
Proof. induction a as [|x a IH]; simpl; [reflexivity | now rewrite IH, andb_assoc]. Qed.

(** ** Texts on which a pattern is quiet *)

Lemma scan_quiet (m : matcher) (f : string -> string) (s : string) :
  quiet m s = true -> rebuild f (scan m 0 s) = s /\ hits (scan m 0 s) = [].
Proof.
  induction s as [|c s IH]; simpl; [now destruct (m "")|].
  destruct (m (String c s)); [discriminate|]. intros H.
  destruct (IH H) as [Hr Hh]. simpl. now rewrite Hr, Hh.
Qed.

Lemma replaceWith_quiet (m : matcher) (f : string -> string) (s : string) :
  quiet m s = true -> replaceWith m f s = s.
Proof. intros H. apply (scan_quiet m f s H). Qed.

Lemma remove_quiet (m : matcher) (s : string) : quiet m s = true -> remove m s = s.
Proof. apply replaceWith_quiet. Qed.

Lemma hits_quiet (m : matcher) (s : string) : quiet m s = true -> hits (pieces m s) = [].
Proof. intros H. apply (scan_quiet m (fun x => x) s H). Qed.

Lemma quiet_weaken (m1 m2 : matcher) (s : string) :
  (forall x, m1 x = None -> m2 x = None) -> quiet m1 s = true -> quiet m2 s = true.
Proof.
  intros Hm. induction s as [|c s IH]; simpl.
  - destruct (m1 "") eqn:H1; [discriminate|]. now rewrite (Hm _ H1).
  - destruct (m1 (String c s)) eqn:H1; [discriminate|]. rewrite (Hm _ H1). exact IH.
Qed.

Lemma anchored_head (m : matcher) (c : ascii) (s : string) :
  anchored m -> Ascii.eqb c "<" = false -> m (String c s) = None.
Proof.
  intros Hm Hc. destruct (m (String c s)) as [n|] eqn:H; [|reflexivity].
  destruct (Hm _ _ H) as [r Hr]. inversion Hr; subst.
  now rewrite Ascii.eqb_refl in Hc.
Qed.

(** Before a [<]-free prefix nothing anchored matches. *)
Lemma quiet_app (m : matcher) (a b : string) :
  anchored m -> free "<" a = true -> quiet m b = true -> quiet m (a ++ b) = true.
Proof.
  intros Hm. induction a as [|c a IH]; simpl; [easy|]. intros Ha Hb.
  apply andb_true_iff in Ha as [Hc Ha]. apply negb_true_iff in Hc.
  rewrite (anchored_head m c (a ++ b) Hm Hc). now apply IH.
Qed.

Lemma foldUnit_lt (b : ascii) : Ascii.eqb (foldUnit "<") (foldUnit b) = true -> b = "<"%char.
Proof.
  destruct b as [[] [] [] [] [] [] [] []]; cbn; intros H; try discriminate; reflexivity.
Qed.

Lemma prefix_ci_lt (p s : string) :
  prefix_ci (String "<" p) s = true -> exists r, s = String "<" r.
Proof.
  destruct s as [|b s]; simpl; [discriminate|]. intros H.
  apply andb_true_iff in H as [H _]. apply foldUnit_lt in H. subst. now exists s.
Qed.

Lemma prefix_lt (p s : string) :
  String.prefix (String "<" p) s = true -> exists r, s = String "<" r.
Proof.
  destruct s as [|b s]; cbn [String.prefix]; [discriminate|].
  destruct (ascii_dec "<" b); [subst; now exists s | discriminate].
Qed.

Lemma lit_anchored (p : string) : anchored (lit (String "<" p)).
Proof.
  intros s n. unfold lit. destruct (String.prefix (String "<" p) s) eqn:H; [|discriminate].
  intros _. now apply prefix_lt in H.
Qed.

Lemma lit_ci_anchored (p : string) : anchored (lit_ci (String "<" p)).
Proof.
  intros s n. unfold lit_ci. destruct (prefix_ci (String "<" p) s) eqn:H; [|discriminate].
  intros _. now apply prefix_ci_lt in H.
Qed.

Lemma block_anchored (name : string) : anchored (block name).
Proof.
  intros s n. unfold block. cbn [append].
  destruct (prefix_ci _ s) eqn:H; [|discriminate]. intros _. now apply prefix_ci_lt in H.
Qed.

(** Where no marker of a kind matches, no block of that kind matches. *)
Lemma tag_none_block (name : string) (s : string) :
  tag true name s = None -> block name s = None.
Proof.
  unfold tag, block, lit_ci.
  destruct (prefix_ci ("</" ++ name ++ ">") s); [discriminate|].
  destruct (prefix_ci ("<" ++ name ++ ">") s); [discriminate | reflexivity].
Qed.

Lemma prefix_prefix_ci (p s : string) : String.prefix p s = true -> prefix_ci p s = true.
Proof.
  revert s; induction p as [|a p IH]; intros s; [reflexivity|].
  destruct s as [|b s]; cbn [String.prefix prefix_ci]; [discriminate|].
  destruct (ascii_dec a b) as [->|]; [|discriminate].
  intros H. now rewrite Ascii.eqb_refl, IH.
Qed.

Lemma lastIndexOf_quiet (p s : string) : quiet (lit p) s = true -> lastIndexOf s p = None.
Proof.
  unfold lit. induction s as [|c s IH]; cbn [quiet lastIndexOf].
  - now destruct (String.prefix p "").
  - destruct (String.prefix p (String c s)); [discriminate|]. intros H. now rewrite IH.
Qed.

Lemma indexOf_quiet (p s : string) : quiet (lit p) s = true -> indexOf s p = None.
Proof.
  unfold lit. induction s as [|c s IH]; cbn [quiet indexOf].
  - now destruct (String.prefix p "").
  - destruct (String.prefix p (String c s)); [discriminate|]. intros H. now rewrite IH.
Qed.

Lemma indexOf_ci_quiet (p s : string) : quiet (lit_ci p) s = true -> indexOf_ci s p = None.
Proof.
  unfold lit_ci. induction s as [|c s IH]; cbn [quiet indexOf_ci].
  - now destruct (prefix_ci p "").
  - destruct (prefix_ci p (String c s)); [discriminate|]. intros H. now rewrite IH.
Qed.

Lemma drop_app (a b : string) : drop (String.length a) (a ++ b) = b.
Proof. induction a as [|c a IH]; simpl; [now destruct b | exact IH]. Qed.

Lemma take_app (a b : string) : take (String.length a) (a ++ b) = a.
Proof. induction a as [|c a IH]; simpl; [now destruct b | now rewrite IH]. Qed.

End Patterns.

(* ================================================================== *)
(** * separateThinking *)
(* ================================================================== *)

Section Thinking.
Import JsString LlamaCppProvider.

Lemma tag_none_lit (name : string) (s : string) :
  tag true name s = None -> lit ("<" ++ name ++ ">") s = None.
Proof.
  unfold tag, lit, lit_ci.
  destruct (prefix_ci ("</" ++ name ++ ">") s); [discriminate|].
  destruct (prefix_ci ("<" ++ name ++ ">") s) eqn:H; [discriminate|]. intros _.
  destruct (String.prefix ("<" ++ name ++ ">") s) eqn:Hp; [|reflexivity].
  apply prefix_prefix_ci in Hp. congruence.
Qed.

Lemma output_trimmed (text : string) :
  trim (output (separateThinking text)) = output (separateThinking text).
Proof.
  unfold separateThinking.
  match goal with |- context [let (_, _) := ?E in _] => destruct E as [t o] end.
  cbn [output]. apply trim_idem.
Qed.

(** On a trimmed text without markers the extractor changes nothing and
    finds no reasoning. *)
Lemma separateThinking_markerFree (v : string) :
  markerFree v = true -> trim v = v ->
  separateThinking v = {| thinking := ""; output := v |}.
Proof.
  unfold markerFree. intros H Htrim.
  apply andb_true_iff in H as [H H3]. apply andb_true_iff in H as [H1 H2].
  assert (Hb1 : quiet (block "think") v = true)
    by (eapply quiet_weaken; [apply tag_none_block | exact H1]).
  assert (Hb2 : quiet (block "thinking") v = true)
    by (eapply quiet_weaken; [apply tag_none_block | exact H2]).
  assert (Hb3 : quiet (block "reasoning") v = true)
    by (eapply quiet_weaken; [apply tag_none_block | exact H3]).
  assert (Ho : lastIndexOf v "<think>" = None).
  { apply lastIndexOf_quiet. eapply quiet_weaken; [|exact H1].
    intros x Hx. exact (tag_none_lit "think" x Hx). }
  unfold separateThinking.
  rewrite (hits_quiet _ _ Hb1), (remove_quiet _ _ Hb1), Ho.
  cbv zeta iota beta.
  rewrite (remove_quiet _ _ H1), Htrim.
  rewrite (hits_quiet _ _ Hb2), (remove_quiet _ _ Hb2).
  rewrite (hits_quiet _ _ Hb3), (remove_quiet _ _ Hb3).
  rewrite (remove_quiet _ _ H2), (remove_quiet _ _ H3), Htrim.
  reflexivity.
Qed.

(** X19.  The extractor is idempotent where its output is clean: whenever
    the visible output of a run holds no marker of any kind, running the
    extractor on it returns it unchanged with an empty reasoning
    accumulator. *)
Theorem extractor_idempotent_on_marker_free_output :
  forall text : string,
    markerFree (output (separateThinking text)) = true ->
    separateThinking (output (separateThinking text))
    = {| thinking := ""; output := output (separateThinking text) |}.
Proof.
  intros text H. apply separateThinking_markerFree; [exact H | apply output_trimmed].
Qed.

Lemma extractor_idempotent_on_marker_free_output_witness :
  separateThinking (output (separateThinking "A<think>plan</think>B"))
  = {| thinking := ""; output := output (separateThinking "A<think>plan</think>B") |}.
Proof.
  apply (extractor_idempotent_on_marker_free_output "A<think>plan</think>B").
  reflexivity.
Defined.

(** C7, at its failing input.  The claim says that no marker survives a
    run and that a second run changes nothing.  On [<thi<THINK>nk>] the one
    pass that cleans up orphan markers removes the upper-case marker and
    so joins the text around it into the marker [<think>], which stays in
    the visible output; a second run turns that output into the empty
    text. *)
Lemma marker_survives_and_second_run_differs :
  output (separateThinking "<thi<THINK>nk>") = "<think>"
  /\ markerFree (output (separateThinking "<thi<THINK>nk>")) = false
  /\ separateThinking (output (separateThinking "<thi<THINK>nk>"))
     = {| thinking := ""; output := "" |}
  /\ output (separateThinking (output (separateThinking "<thi<THINK>nk>")))
     <> output (separateThinking "<thi<THINK>nk>").
Proof. repeat split. discriminate. Qed.

Lemma lastIndexOf_app (p a rest : string) (i : nat) :
  lastIndexOf rest p = Some i -> lastIndexOf (a ++ rest) p = Some (String.length a + i).
Proof.
  intros H. induction a as [|c a IH]; [exact H|].
  cbn [append lastIndexOf String.length]. now rewrite IH.
Qed.

(** ** Matches cannot straddle a [<]

    A pattern whose only [<] is its first unit cannot match across a [<]
    of the text: a match that starts before it ends before it. *)
Lemma prefix_ci_cut (q x y : string) :
  free "<" q = true -> prefix_ci q (x ++ String "<" y) = true -> prefix_ci q x = true.
Proof.
  revert x. induction q as [|a q IH]; intros x Hq H; [reflexivity|].
  cbn [free] in Hq. apply andb_true_iff in Hq as [Ha Hq]. apply negb_true_iff in Ha.
  destruct x as [|b x]; cbn [append prefix_ci] in *.
  - apply andb_true_iff in H as [H _]. rewrite Ascii.eqb_sym in H.
    apply foldUnit_lt in H. subst a. now rewrite Ascii.eqb_refl in Ha.
  - apply andb_true_iff in H as [Hab H]. rewrite Hab. now apply IH.
Qed.

Lemma prefix_ci_local (q x y : string) :
  free "<" q = true -> x <> "" ->
  prefix_ci (String "<" q) (x ++ String "<" y) = true -> prefix_ci (String "<" q) x = true.
Proof.
  intros Hq Hx H. destruct x as [|b x]; [congruence|].
  cbn [append prefix_ci] in *. apply andb_true_iff in H as [Hb H].
  rewrite Hb. now apply (prefix_ci_cut q x y).
Qed.

Lemma tag_some (name s : string) :
  tag true name s <> None
  <-> prefix_ci ("</" ++ name ++ ">") s = true \/ prefix_ci ("<" ++ name ++ ">") s = true.
Proof.
  unfold tag, lit_ci.
  destruct (prefix_ci ("</" ++ name ++ ">") s); [split; [now left | discriminate]|].
  destruct (prefix_ci ("<" ++ name ++ ">") s); [split; [now right | discriminate]|].
  split; [congruence | intros [H | H]; discriminate].
Qed.

Lemma tag_local (name x y : string) :
  free "<" name = true -> x <> "" ->
  tag true name (x ++ String "<" y) <> None -> tag true name x <> None.
Proof.
  intros Hname Hx. rewrite !tag_some. cbn [append].
  intros [H | H]; [left | right]; (apply (prefix_ci_local _ x y); [|exact Hx | exact H]);
    cbn [free]; rewrite ?free_app, Hname; reflexivity.
Qed.

Lemma block_local (name x y : string) :
  free "<" name = true -> x <> "" ->
  block name (x ++ String "<" y) <> None -> tag true name x <> None.
Proof.
  intros Hname Hx H. apply tag_some. right. cbn [append].
  apply (prefix_ci_local _ x y); [|exact Hx|].
  - rewrite free_app, Hname. reflexivity.
  - unfold block in H. cbn [append] in H.
    destruct (prefix_ci (String "<" (name ++ ">")) (x ++ String "<" y)); congruence.
Qed.

Lemma lit_tag (closing : bool) (name s : string) :
  lit ((if closing then "</" else "<") ++ name ++ ">") s <> None -> tag true name s <> None.
Proof.
  unfold lit. intros H. apply tag_some.
  destruct (String.prefix _ s) eqn:Hp; [|congruence].
  apply prefix_prefix_ci in Hp. destruct closing; [now left | now right].
Qed.

Lemma lit_local (closing : bool) (name x y : string) :
  free "<" name = true -> x <> "" ->
  lit ((if closing then "</" else "<") ++ name ++ ">") (x ++ String "<" y) <> None ->
  tag true name x <> None.
Proof.
  intros Hname Hx H. apply (tag_local name x y Hname Hx). now apply (lit_tag closing).
Qed.

(** Where [m1] is quiet before a [<] and [m2] after it, [m2] is quiet on the
    whole, when a match of [m2] that starts before the [<] shows one of
    [m1] there. *)
Lemma quiet_junction (m1 m2 : matcher) (a rest : string) :
  (forall x y, x <> "" -> m2 (x ++ String "<" y) <> None -> m1 x <> None) ->
  quiet m1 a = true -> quiet m2 (String "<" rest) = true ->
  quiet m2 (a ++ String "<" rest) = true.
Proof.
  intros Hloc. induction a as [|c a IH]; intros Ha Hrest; [exact Hrest|].
  cbn [append quiet] in *.
  destruct (m1 (String c a)) eqn:H1; [discriminate|].
  destruct (m2 (String c (a ++ String "<" rest))) eqn:H2.
  - exfalso. apply (Hloc (String c a) rest); [discriminate | cbn; congruence | exact H1].
  - now apply IH.
Qed.

(** The first occurrence of a literal lies at the [<] when nothing matches
    before it. *)
Lemma indexOf_junction (m1 : matcher) (p a rest : string) :
  (forall x y, x <> "" -> lit p (x ++ String "<" y) <> None -> m1 x <> None) ->
  quiet m1 a = true -> String.prefix p (String "<" rest) = true ->
  indexOf (a ++ String "<" rest) p = Some (String.length a).
Proof.
  intros Hloc. induction a as [|c a IH]; intros Ha Hrest.
  - cbn [append indexOf]. now rewrite Hrest.
  - cbn [append quiet indexOf String.length] in *.
    destruct (m1 (String c a)) eqn:H1; [discriminate|].
    destruct (String.prefix p (String c (a ++ String "<" rest))) eqn:H2.
    + exfalso. apply (Hloc (String c a) rest); [discriminate | | exact H1].
      unfold lit. cbn [append]. now rewrite H2.
    + now rewrite IH.
Qed.

(** ** Trimming keeps a text quiet *)

Lemma quiet_suffix (m : matcher) (a b : string) : quiet m (a ++ b) = true -> quiet m b = true.
Proof.
  induction a as [|c a IH]; [easy|]. cbn [append quiet].
  destruct (m (String c (a ++ b))); [discriminate | exact IH].
Qed.

Lemma quiet_prefix (m : matcher) (a b : string) :
  (forall x y, m x <> None -> m (x ++ y) <> None) ->
  quiet m (a ++ b) = true -> quiet m a = true.
Proof.
  intros Hext. induction a as [|c a IH]; cbn [append quiet].
  - intros H. destruct (m "") eqn:H0; [|reflexivity].
    exfalso. apply (Hext "" b); [congruence|]. cbn. destruct b; cbn in H.
    + now rewrite H0 in H.
    + now destruct (m (String a b)).
  - destruct (m (String c a)) eqn:H1.
    + intros H. exfalso. apply (Hext (String c a) b); [congruence|].
      cbn. now destruct (m (String c (a ++ b))).
    + destruct (m (String c (a ++ b))); [discriminate | exact IH].
Qed.

Lemma prefix_ci_app (p x y : string) : prefix_ci p x = true -> prefix_ci p (x ++ y) = true.
Proof.
  revert x. induction p as [|a p IH]; intros x; [reflexivity|].
  destruct x as [|b x]; cbn [append prefix_ci]; [discriminate|].
  intros H. apply andb_true_iff in H as [Hab H]. rewrite Hab. now apply IH.
Qed.

Lemma tag_app (name x y : string) : tag true name x <> None -> tag true name (x ++ y) <> None.
Proof.
  rewrite !tag_some. intros [H | H]; [left | right]; now apply prefix_ci_app.
Qed.

Lemma trimStart_suffix (s : string) : exists w, s = w ++ trimStart s.
Proof.
  induction s as [|c s [w IH]]; [now exists ""|]. cbn [trimStart].
  destruct (isWhiteSpace c); [|now exists ""].
  exists (String c w). cbn. now rewrite <- IH.
Qed.

Lemma trimEnd_prefix (s : string) : exists w, s = trimEnd s ++ w.
Proof.
  induction s as [|c s [w IH]]; [now exists ""|]. rewrite trimEnd_cons.
  destruct (trimEnd s) as [|x r].
  - destruct (isWhiteSpace c); [now exists (String c s)|].
    exists w. cbn in *. now rewrite <- IH.
  - exists w. cbn in *. now rewrite <- IH.
Qed.

Lemma quiet_tag_trim (name s : string) :
  quiet (tag true name) s = true -> quiet (tag true name) (trim s) = true.
Proof.
  intros H. unfold trim.
  destruct (trimStart_suffix s) as [w Hw].
  destruct (trimEnd_prefix (trimStart s)) as [w' Hw'].
  apply (quiet_prefix _ _ w'); [intros x y; apply tag_app|].
  rewrite <- Hw'. apply (quiet_suffix _ w). now rewrite <- Hw.
Qed.

Lemma markerFree_trim (s : string) : markerFree s = true -> markerFree (trim s) = true.
Proof.
  unfold markerFree. intros H.
  apply andb_true_iff in H as [H H3]. apply andb_true_iff in H as [H1 H2].
  now rewrite !quiet_tag_trim.
Qed.

(** What a marker-free text is quiet for. *)
Lemma markerFree_quiet (s : string) :
  markerFree s = true ->
  quiet (tag true "think") s = true
  /\ quiet (tag true "thinking") s = true
  /\ quiet (tag true "reasoning") s = true
  /\ quiet (block "think") s = true
  /\ quiet (block "thinking") s = true
  /\ quiet (block "reasoning") s = true
  /\ quiet (tag false "think") s = true
  /\ quiet (lit "<think>") s = true
  /\ quiet (lit "</think>") s = true
  /\ quiet (lit_ci "</think>") s = true.
Proof.
  unfold markerFree. intros H.
  apply andb_true_iff in H as [H H3]. apply andb_true_iff in H as [H1 H2].
  assert (Hnone : forall (m : matcher),
             (forall x, m x <> None -> tag true "think" x <> None) ->
             quiet m s = true).
  { intros m Hm. apply (quiet_weaken (tag true "think")); [|exact H1].
    intros x Hx. destruct (m x) eqn:Hmx; [|reflexivity].
    exfalso. apply (Hm x); congruence. }
  repeat split; try assumption;
    try (eapply quiet_weaken; [apply tag_none_block | assumption]).
  - apply Hnone. intros x Hx. unfold tag, lit in Hx. cbn [append] in Hx.
    apply tag_some. cbn [append].
    destruct (String.prefix "</think>" x) eqn:Hc;
      [left; now apply prefix_prefix_ci in Hc|].
    destruct (String.prefix "<think>" x) eqn:Hp;
      [right; now apply prefix_prefix_ci in Hp | congruence].
  - apply Hnone. intros x. apply (lit_tag false "think").
  - apply Hnone. intros x. apply (lit_tag true "think").
  - apply Hnone. intros x Hx. apply tag_some. left. unfold lit_ci in Hx.
    destruct (prefix_ci "</think>" x) eqn:Hp; [exact Hp | congruence].
Qed.

(** The facts about a buffer made of a marker-free text, an opening think
    marker and a marker-free tail. *)
Lemma unclosed_think_facts (pre tail : string) :
  markerFree pre = true -> markerFree tail = true ->
  let text := pre ++ "<think>" ++ tail in
  quiet (block "think") text = true
  /\ lastIndexOf text "<think>" = Some (String.length pre)
  /\ lastIndexOf text "</think>" = None
  /\ indexOf text "<think>" = Some (String.length pre)
  /\ indexOf text "</think>" = None
  /\ drop (String.length pre + 7) text = tail
  /\ take (String.length pre) text = pre.
Proof.
  intros Hpre Htail text. subst text.
  destruct (markerFree_quiet pre Hpre) as (Hp1 & _).
  destruct (markerFree_quiet tail Htail)
    as (_ & _ & _ & Htb & _ & _ & _ & Hto & Htc & Htci).
  change ("<think>" ++ tail) with (String "<" ("think>" ++ tail)).
  assert (Hclose : quiet (lit "</think>") (pre ++ String "<" ("think>" ++ tail)) = true).
  { apply (quiet_junction (tag true "think")); [| exact Hp1 |].
    - intros x y. now apply (lit_local true "think").
    - cbn [quiet]. replace (lit "</think>" (String "<" ("think>" ++ tail))) with (@None nat)
        by (now destruct tail).
      apply quiet_app; [apply lit_anchored | reflexivity | exact Htc]. }
  repeat split.
  - apply (quiet_junction (tag true "think")); [| exact Hp1 |].
    + intros x y. now apply block_local.
    + cbn [quiet].
      assert (Hb : block "think" (String "<" ("think>" ++ tail)) = None).
      { unfold block. cbn. now rewrite indexOf_ci_quiet. }
      rewrite Hb. apply quiet_app; [apply block_anchored | reflexivity | exact Htb].
  - rewrite (lastIndexOf_app "<think>" pre _ 0); [now rewrite Nat.add_0_r|].
    cbn [lastIndexOf]. rewrite lastIndexOf_quiet.
    + replace (String.prefix "<think>" (String "<" ("think>" ++ tail))) with true;
        [reflexivity|]. symmetry. apply prefix_iff. now exists tail.
    + apply quiet_app; [apply lit_anchored | reflexivity | exact Hto].
  - now apply lastIndexOf_quiet.
  - apply (indexOf_junction (tag true "think")); [| exact Hp1 |].
    + intros x y. now apply (lit_local false "think").
    + apply prefix_iff. now exists tail.
  - now apply indexOf_quiet.
  - change (String "<" ("think>" ++ tail)) with ("<think>" ++ tail).
    rewrite <- append_assoc.
    replace (String.length pre + 7) with (String.length (pre ++ "<think>"))
      by (now rewrite append_length).
    apply drop_app.
  - apply take_app.
Qed.

(** C2, as the code has it.  For a buffer made of a text without markers,
    an opening think marker (in lower case) and a tail without markers, so
    that the marker is not closed: the extractor gives the tail, trimmed, as
    reasoning and the text before the marker, trimmed, as visible output,
    and neither holds a marker.  The streaming path of the llama.cpp class
    cuts the same buffer at the same place and trims both parts likewise. *)
Theorem unclosed_think_goes_to_reasoning :
  forall pre tail : string,
    markerFree pre = true -> markerFree tail = true ->
    separateThinking (pre ++ "<think>" ++ tail)
    = {| thinking := trim tail; output := trim pre |}
    /\ cut (pre ++ "<think>" ++ tail) = Some (tail, pre)
    /\ clean pre = trim pre
    /\ clean tail = trim tail
    /\ markerFree (trim pre) = true
    /\ markerFree (trim tail) = true.
Proof.
  intros pre tail Hpre Htail.
  destruct (unclosed_think_facts pre tail Hpre Htail)
    as (Hb & Hlo & Hlc & Hio & Hic & Hdrop & Htake).
  assert (Hclean : forall s, markerFree s = true -> clean s = trim s).
  { intros s Hs. unfold clean. rewrite remove_quiet; [reflexivity|].
    apply (markerFree_quiet s Hs). }
  repeat split; auto using markerFree_trim.
  - destruct (markerFree_quiet pre Hpre) as (Hp1 & _).
    destruct (markerFree_quiet (trim pre) (markerFree_trim pre Hpre))
      as (_ & Hq2 & Hq3 & _ & Hb2 & Hb3 & _).
    unfold separateThinking.
    rewrite (hits_quiet _ _ Hb), (remove_quiet _ _ Hb), Hlo, Hlc.
    cbv zeta iota beta. rewrite Hdrop, Htake.
    rewrite (remove_quiet _ _ Hp1).
    rewrite (hits_quiet _ _ Hb2), (remove_quiet _ _ Hb2),
      (hits_quiet _ _ Hb3), (remove_quiet _ _ Hb3),
      (remove_quiet _ _ Hq2), (remove_quiet _ _ Hq3), trim_idem.
    cbn [map joined String.concat append]. now rewrite !append_nil_r.
  - unfold cut. now rewrite Hio, Hic, Hdrop, Htake.
Qed.

Lemma unclosed_think_goes_to_reasoning_witness :
  separateThinking ("Hello " ++ "<think>" ++ "reasoning so far")
  = {| thinking := trim "reasoning so far"; output := trim "Hello " |}
  /\ cut ("Hello " ++ "<think>" ++ "reasoning so far") = Some ("reasoning so far", "Hello ")
  /\ clean "Hello " = trim "Hello "
  /\ clean "reasoning so far" = trim "reasoning so far"
  /\ markerFree (trim "Hello ") = true
  /\ markerFree (trim "reasoning so far") = true.
Proof.
  apply (unclosed_think_goes_to_reasoning "Hello " "reasoning so far"); reflexivity.
Defined.

(** C2 as stated fails.  On the buffer of the claim's own example the
    visible output is trimmed: it is Hello without the space.  And an
    opening marker of the kind thinking that is not closed is only
    stripped: what follows it stays in the visible output and the reasoning
    is empty. *)
Lemma unclosed_marker_outputs :
  separateThinking "Hello <think>reasoning so far"
  = {| thinking := "reasoning so far"; output := "Hello" |}
  /\ output (separateThinking "Hello <think>reasoning so far") <> "Hello "
  /\ separateThinking "x <thinking>abc" = {| thinking := ""; output := "x abc" |}.
Proof. repeat split. discriminate. Qed.

End Thinking.

(* ================================================================== *)
(** * buildPrompt *)
(* ================================================================== *)

Section Prompt.
Import JsString BaseProvider.

(** A replacement string without [$] is inserted as it is. *)
Lemma expand_free (matched before after rep : string) :
  free "$" rep = true -> expand matched before after rep = rep.
Proof.
  induction rep as [|c rep IH]; [reflexivity|]. cbn [free expand]. intros H.
  apply andb_true_iff in H as [Hc Hr]. apply negb_true_iff in Hc.
  rewrite Hc. now rewrite IH.
Qed.

Lemma substitute_free (rep before : string) (ps : list piece) :
  free "$" rep = true -> substitute rep before ps = rebuild (fun _ => rep) ps.
Proof.
  intros Hrep. revert before. induction ps as [|[c|m] ps IH]; intros before; simpl.
  - reflexivity.
  - now rewrite IH.
  - now rewrite IH, expand_free.
Qed.

Lemma indexOf_none (p s : string) : indexOf s p = None <-> ~ occursIn p s.
Proof.
  unfold occursIn. rewrite <- includes_iff. induction s as [|c s IH].
  - cbn [indexOf includes]. destruct (String.prefix p ""); simpl; split; congruence.
  - cbn [indexOf includes]. destruct (String.prefix p (String c s)); simpl.
    + split; [discriminate | intros H; now contradiction H].
    + destruct (indexOf s p); simpl.
      * split; [discriminate|]. intros H. exfalso. apply IH in H. discriminate.
      * split; [intros _; now apply IH | reflexivity].
Qed.

(** [indexOf] finds the leftmost occurrence. *)
Lemma indexOf_some (p s : string) (k : nat) :
  indexOf s p = Some k ->
  exists a b, s = a ++ p ++ b /\ String.length a = k
              /\ forall a' b', s = a' ++ p ++ b' -> k <= String.length a'.
Proof.
  revert k. induction s as [|c s IH]; intros k; cbn [indexOf].
  - destruct (String.prefix p "") eqn:Hp; [|discriminate]. intros H. inversion H; subst.
    apply prefix_iff in Hp as [r Hr]. exists "", r. repeat split; [exact Hr | intros; lia].
  - destruct (String.prefix p (String c s)) eqn:Hp.
    + intros H. inversion H; subst. apply prefix_iff in Hp as [r Hr].
      exists "", r. repeat split; [exact Hr | intros; lia].
    + destruct (indexOf s p) as [j|] eqn:Hj; [|discriminate]. cbn. intros H.
      inversion H; subst. destruct (IH j eq_refl) as (a & b & Hs & Hlen & Hmin).
      exists (String c a), b. repeat split.
      * cbn. now rewrite Hs.
      * cbn. now rewrite Hlen.
      * intros a' b' Heq. destruct a' as [|x a'].
        -- exfalso. assert (String.prefix p (String c s) = true)
             by (apply prefix_iff; now exists b').
           congruence.
        -- cbn in Heq. inversion Heq. cbn. apply le_n_S. apply (Hmin a' b'). assumption.
Qed.

(** Up to the leftmost occurrence the scan leaves every unit alone. *)
Lemma scan_before (p a rest : string) :
  indexOf (a ++ rest) p = Some (String.length a) ->
  forall f, rebuild f (scan (lit p) 0 (a ++ rest)) = a ++ rebuild f (scan (lit p) 0 rest).
Proof.
  induction a as [|c a IH]; intros H f; [reflexivity|].
  cbn [append String.length indexOf scan] in *. unfold lit at 1.
  destruct (String.prefix p (String c (a ++ rest))); [discriminate|].
  destruct (indexOf (a ++ rest) p) as [j|] eqn:Hj; [|discriminate].
  cbn in H. inversion H; subst. cbn [rebuild]. now rewrite IH.
Qed.

Lemma scan_skip (m : matcher) (a b : string) :
  scan m (String.length a) (a ++ b) = scan m 0 b.
Proof.
  induction a as [|c a IH]; [reflexivity|]. cbn [append String.length scan].
  exact IH.
Qed.

(** At an occurrence the scan records the match and resumes after it. *)
Lemma scan_at (x : ascii) (p b : string) (f : string -> string) :
  rebuild f (scan (lit (String x p)) 0 (String x p ++ b))
  = f (String x p) ++ rebuild f (scan (lit (String x p)) 0 b).
Proof.
  cbn [append scan]. unfold lit at 1.
  assert (Hp : String.prefix (String x p) (String x (p ++ b)) = true)
    by (apply prefix_iff; now exists b).
  rewrite Hp. cbn [String.length rebuild].
  rewrite scan_skip.
  change (String x (p ++ b)) with (String x p ++ b).
  replace (S (String.length p)) with (String.length (String x p)) by reflexivity.
  now rewrite take_app.
Qed.

(** What [replace] with a global literal pattern computes is the textual
    substitution, when the value holds no [$]. *)
Lemma replaceAll_Replaced (p v : string) :
  p <> "" -> free "$" v = true ->
  forall s, Replaced p v s (replaceAll (lit p) v s).
Proof.
  intros Hp Hv s. unfold replaceAll, pieces. rewrite substitute_free by exact Hv.
  remember (String.length s) as n eqn:Hn. revert s Hn.
  induction n as [n IH] using lt_wf_ind. intros s Hn.
  destruct (indexOf s p) as [k|] eqn:Hk.
  - destruct (indexOf_some p s k Hk) as (a & b & Hs & Hlen & Hmin). subst s k.
    rewrite (scan_before p a (p ++ b) Hk).
    destruct p as [|x p]; [congruence|].
    rewrite scan_at. apply Replaced_hit.
    + intros a' b' Heq. exact (Hmin a' b' Heq).
    + apply (IH (String.length b)); [|reflexivity].
      rewrite Hn, !append_length. cbn. lia.
  - assert (Hq : quiet (lit p) s = true).
    { clear - Hk. unfold lit. induction s as [|c s IHs]; cbn [indexOf quiet] in *.
      - now destruct (String.prefix p "").
      - destruct (String.prefix p (String c s)); [discriminate|].
        destruct (indexOf s p); [discriminate|]. now apply IHs. }
    rewrite (proj1 (scan_quiet _ _ _ Hq)). apply Replaced_none. now apply indexOf_none.
Qed.

Lemma append_same_length (a a' x y : string) :
  a ++ x = a' ++ y -> String.length a = String.length a' -> a = a' /\ x = y.
Proof.
  revert a'. induction a as [|c a IH]; intros [|c' a'] H Hlen; try discriminate.
  - now split.
  - cbn in H, Hlen. inversion H; subst. destruct (IH a' H2) as [-> ->]; [lia | now split].
Qed.

(** The textual substitution has one result. *)
Lemma Replaced_functional (p v s r r' : string) :
  Replaced p v s r -> Replaced p v s r' -> r = r'.
Proof.
  intros H. revert r'. induction H as [s Hno | a b r Hmin H IH]; intros r' H'.
  - inversion H' as [s' Hno' | a' b' r0 Hmin' H0]; subst; [reflexivity|].
    exfalso. apply Hno. now exists a', b'.
  - remember (a ++ p ++ b) as s eqn:Hs.
    destruct H' as [s Hno' | a' b' r0 Hmin' H0].
    + exfalso. apply Hno'. now exists a, b.
    + assert (Hlen : String.length a = String.length a').
      { apply Nat.le_antisymm; [now apply (Hmin a' b') | now apply (Hmin' a b)]. }
      destruct (append_same_length a' a _ _ Hs (eq_sym Hlen)) as [-> Hpb].
      destruct (append_same_length p p _ _ Hpb eq_refl) as [_ ->].
      now rewrite (IH r0).
Qed.

(** A code that names no inherited member has a text as name: its entry
    in the table, or the code itself. *)
Lemma getLanguageName_text (code : string) :
  inherited code = None ->
  getLanguageName code = Text (orDefault (entry languages code) code).
Proof.
  intros H. unfold getLanguageName. rewrite H. now destruct (entry languages code).
Qed.

(** C8, as the code has it.  For language codes that name no member
    inherited from [Object.prototype], and values that hold no [$], the
    prompt is the user template after three successive textual,
    case-sensitive substitutions: of the source language name for every
    [{source_lang}], then of the target language name for every
    [{target_lang}] of the result, then of the text for every [{text}] of
    that result.  Within each pass the inserted value is copied and never
    scanned, so the text, which is inserted last, is never scanned for
    placeholders. *)
Theorem buildPrompt_three_textual_passes :
  forall text sourceLang targetLang userPrompt : string,
    let source := orDefault (entry languages sourceLang) sourceLang in
    let target := orDefault (entry languages targetLang) targetLang in
    inherited sourceLang = None ->
    inherited targetLang = None ->
    free "$" source = true ->
    free "$" target = true ->
    free "$" text = true ->
    getLanguageName sourceLang = Text source
    /\ getLanguageName targetLang = Text target
    /\ exists s1 s2 s3,
        Replaced "{source_lang}" source userPrompt s1
        /\ Replaced "{target_lang}" target s1 s2
        /\ Replaced "{text}" text s2 s3
        /\ buildPrompt text sourceLang targetLang userPrompt = inr s3.
Proof.
  intros text sourceLang targetLang userPrompt source target Hsi Hti Hs Ht Hx.
  pose proof (getLanguageName_text sourceLang Hsi) as Hsn.
  pose proof (getLanguageName_text targetLang Hti) as Htn.
  fold source in Hsn. fold target in Htn.
  split; [exact Hsn | split; [exact Htn|]].
  eexists _, _, _. unfold buildPrompt. rewrite Hsn, Htn. cbn [replaceBy].
  repeat split; try (apply replaceAll_Replaced; easy).
Qed.

Lemma buildPrompt_three_textual_passes_witness :
  getLanguageName "en" = Text "English"
  /\ getLanguageName "ko" = Text "Korean"
  /\ exists s1 s2 s3,
      Replaced "{source_lang}" "English" "{source_lang} to {target_lang}: {text}" s1
      /\ Replaced "{target_lang}" "Korean" s1 s2
      /\ Replaced "{text}" "Hi" s2 s3
      /\ buildPrompt "Hi" "en" "ko" "{source_lang} to {target_lang}: {text}" = inr s3.
Proof.
  apply (buildPrompt_three_textual_passes "Hi" "en" "ko"
           "{source_lang} to {target_lang}: {text}"); reflexivity.
Defined.

(** C8 as stated fails, in three ways.  A value inserted for
    [{source_lang}] is scanned by the later passes: a source language
    written as the placeholder of the text is replaced by the text.  A [$]
    pattern in a value is expanded: the text [$&] is inserted as the
    placeholder it replaces.  And a language code that names an inherited
    member is not inserted at all: for [constructor] the placeholder stays
    in the prompt. *)
Lemma inserted_value_is_rescanned_or_rewritten :
  (getLanguageName "{text}" = Text "{text}"
   /\ buildPrompt "Bonjour" "{text}" "ko" "From {source_lang}" = inr "From Bonjour"
   /\ buildPrompt "Bonjour" "{text}" "ko" "From {source_lang}" <> inr "From {text}")
  /\ (buildPrompt "$&" "en" "ko" "Say {text}" = inr "Say {text}"
      /\ buildPrompt "$&" "en" "ko" "Say {text}" <> inr "Say $&")
  /\ (buildPrompt "Hi" "constructor" "ko" "From {source_lang}" = inr "From {source_lang}"
      /\ buildPrompt "Hi" "constructor" "ko" "From {source_lang}" <> inr "From constructor").
Proof. repeat split; discriminate. Qed.

End Prompt.

(* ================================================================== *)
(** * Further properties of the history log *)
(* ================================================================== *)

Section HistoryMore.
Import JsString HistoryManager.

(** X1.  The record just added is the one [get] returns for its
    identifier, even when an older record carries the same identifier. *)
Theorem get_after_add :
  forall (h : list item) (newId now : string) (e : entry),
    get (fst (add h newId now e)) newId = Some (snd (add h newId now e)).
Proof.
  intros h newId now e. rewrite add_unfold. unfold get. cbn [List.find].
  replace (id (snd (add h newId now e)) =? newId) with true; [reflexivity|].
  symmetry. apply String.eqb_refl.
Qed.

Lemma without_spec (h : list item) (id0 : string) :
  match List.find (fun item => id item =? id0) h with
  | None => without h id0 = None
  | Some x =>
      exists before after,
        h = (before ++ x :: after)%list
        /\ id x = id0
        /\ (forall y, In y before -> id y <> id0)
        /\ without h id0 = Some (before ++ after)%list
  end.
Proof.
  induction h as [|y h IH]; cbn [List.find without]; [reflexivity|].
  destruct (id y =? id0) eqn:Hy.
  - exists [], h. apply String.eqb_eq in Hy. repeat split; try assumption. intros z [].
  - destruct (List.find (fun item => id item =? id0) h) as [x|].
    + destruct IH as (before & after & Hh & Hx & Hb & Hw).
      exists (y :: before), after. repeat split.
      * cbn. now rewrite Hh.
      * exact Hx.
      * intros z [<- | Hz]; [now apply String.eqb_neq | now apply Hb].
      * now rewrite Hw.
    + now rewrite IH.
Qed.

(** X2.  [remove] deletes exactly the record [get] finds: when no record
    has the identifier it returns [false] and leaves the log as it is;
    otherwise it returns [true] and takes out the first record with that
    identifier, every other record staying in place and in order. *)
Theorem remove_deletes_what_get_finds :
  forall (h : list item) (id0 : string),
    match get h id0 with
    | None => remove h id0 = (h, false)
    | Some x =>
        exists before after,
          h = (before ++ x :: after)%list
          /\ id x = id0
          /\ (forall y, In y before -> id y <> id0)
          /\ remove h id0 = ((before ++ after)%list, true)
          /\ List.length (fst (remove h id0)) + 1 = List.length h
    end.
Proof.
  intros h id0. unfold get, remove. pose proof (without_spec h id0) as H.
  destruct (List.find (fun item => id item =? id0) h) as [x|].
  - destruct H as (before & after & Hh & Hx & Hb & Hw).
    exists before, after. rewrite Hw. repeat split; try assumption.
    cbn [fst]. rewrite Hh, !length_app. cbn. lia.
  - now rewrite H.
Qed.

(** X3.  Removing the record just added gives back the 99 newest records
    of the log as it was: the whole log when it held fewer than 100
    records, so that an addition to a log that is not full is undone by
    removing its identifier. *)
Theorem remove_after_add :
  forall (h : list item) (newId now : string) (e : entry),
    remove (fst (add h newId now e)) newId = (firstn (MAX_ITEMS - 1) h, true)
    /\ (List.length h < MAX_ITEMS -> remove (fst (add h newId now e)) newId = (h, true)).
Proof.
  intros h newId now e.
  assert (H : remove (fst (add h newId now e)) newId = (firstn (MAX_ITEMS - 1) h, true)).
  { rewrite add_unfold. unfold remove. cbn [without].
    replace (id (snd (add h newId now e)) =? newId) with true; [reflexivity|].
    symmetry. apply String.eqb_refl. }
  split; [exact H|]. intros Hlen. rewrite H. f_equal. apply firstn_all2. lia.
Qed.

Lemma remove_after_add_witness :
  remove (fst (add [sampleItem "a"] "new" "2025-01-02T00:00:00.000Z" sampleEntry)) "new"
  = ([sampleItem "a"], true).
Proof.
  apply (remove_after_add [sampleItem "a"] "new" "2025-01-02T00:00:00.000Z" sampleEntry).
  cbn. unfold MAX_ITEMS. lia.
Defined.

Lemma filter_Sublist {A} (f : A -> bool) (l : list A) : Sublist (filter f l) l.
Proof.
  induction l as [|x l IH]; cbn; [constructor|].
  destruct (f x); now constructor.
Qed.

Lemma Sublist_refl {A} (l : list A) : Sublist l l.
Proof. induction l; now constructor. Qed.

Lemma filter_idem {A} (f : A -> bool) (l : list A) : filter f (filter f l) = filter f l.
Proof.
  induction l as [|x l IH]; cbn; [reflexivity|].
  destruct (f x) eqn:Hx; cbn; [now rewrite Hx, IH | exact IH].
Qed.

(** X4.  A search never invents or reorders records: its result is the
    log with some records left out.  Searching the result again with the
    same query changes nothing. *)
Theorem search_is_a_stable_selection :
  forall (h : list item) (q : string),
    Sublist (search h q) h /\ search (search h q) q = search h q.
Proof.
  intros h q. unfold search.
  destruct ((q =? "") || (trim q =? "")).
  - split; [apply Sublist_refl | reflexivity].
  - split; [apply filter_Sublist | apply filter_idem].
Qed.

(** X5.  The age shown for a record depends on the elapsed time alone, in
    whole units rounded down: under a minute (a time stamp in the future
    included) it is the word for now; under an hour the minutes; under a day
    the hours; up to the end of the seventh day the days; from eight days on
    the date. *)
Theorem formatTimeAgo_buckets :
  forall (now date : Z) (localeDate : string),
    let diff := (now - date)%Z in
    ((diff < 60000)%Z -> formatTimeAgo now date localeDate = "방금 전")
    /\ ((60000 <= diff < 3600000)%Z ->
        formatTimeAgo now date localeDate = shownCount (diff / 60000) ++ "분 전"
        /\ (1 <= diff / 60000 <= 59)%Z)
    /\ ((3600000 <= diff < 86400000)%Z ->
        formatTimeAgo now date localeDate = shownCount (diff / 3600000) ++ "시간 전"
        /\ (1 <= diff / 3600000 <= 23)%Z)
    /\ ((86400000 <= diff < 691200000)%Z ->
        formatTimeAgo now date localeDate = shownCount (diff / 86400000) ++ "일 전"
        /\ (1 <= diff / 86400000 <= 7)%Z)
    /\ ((691200000 <= diff)%Z -> formatTimeAgo now date localeDate = localeDate).
Proof.
  intros now date localeDate diff. unfold formatTimeAgo. fold diff.
  assert (Hm : (diff / 1000 / 60 = diff / 60000)%Z)
    by (rewrite Z.div_div by lia; reflexivity).
  assert (Hh : (diff / 1000 / 60 / 60 = diff / 3600000)%Z)
    by (rewrite !Z.div_div by lia; reflexivity).
  assert (Hd : (diff / 1000 / 60 / 60 / 24 = diff / 86400000)%Z)
    by (rewrite !Z.div_div by lia; reflexivity).
  rewrite Hd, Hh, Hm.
  pose proof (Z.div_le_lower_bound diff 60000 1) as Lm.
  pose proof (Z.div_lt_upper_bound diff 60000 1) as Um.
  pose proof (Z.div_lt_upper_bound diff 60000 60) as Um'.
  pose proof (Z.div_le_lower_bound diff 3600000 1) as Lh.
  pose proof (Z.div_lt_upper_bound diff 3600000 1) as Uh.
  pose proof (Z.div_lt_upper_bound diff 3600000 24) as Uh'.
  pose proof (Z.div_le_lower_bound diff 86400000 1) as Ld.
  pose proof (Z.div_lt_upper_bound diff 86400000 1) as Ud.
  pose proof (Z.div_le_lower_bound diff 86400000 8) as Ld'.
  pose proof (Z.div_lt_upper_bound diff 86400000 8) as Ud'.
  split; [|split; [|split; [|split]]]; intros Hrange; [|split|split|split|];
    repeat match goal with
      | |- context [(?a <? ?b)%Z] => destruct (Z.ltb_spec a b)
      end; try reflexivity; lia.
Qed.

Lemma formatTimeAgo_buckets_witness :
  formatTimeAgo 7200000 0 "2025. 1. 1." = shownCount (7200000 / 3600000) ++ "시간 전"
  /\ (1 <= 7200000 / 3600000 <= 23)%Z.
Proof.
  pose proof (formatTimeAgo_buckets 7200000 0 "2025. 1. 1.") as H. cbv zeta in H.
  destruct H as (_ & _ & Hh & _). apply Hh. cbn. lia.
Defined.

End HistoryMore.

(* ================================================================== *)
(** * Further properties of the read loops *)
(* ================================================================== *)

Section StreamsMore.
Import JsString BaseProvider ProviderFactory.

Lemma split_nonempty (sep : ascii) (s : string) : split sep s <> [].
Proof.
  induction s as [|c s IH]; cbn [split]; [discriminate|].
  destruct (Ascii.eqb c sep); [discriminate|]. now destruct (split sep s).
Qed.

Lemma split_app (sep : ascii) (a b : string) :
  split sep (a ++ String sep b) = (split sep a ++ split sep b)%list.
Proof.
  induction a as [|c a IH]; cbn [append split].
  - now rewrite Ascii.eqb_refl.
  - destruct (Ascii.eqb c sep); [now rewrite IH|].
    rewrite IH. pose proof (split_nonempty sep a) as Hne.
    now destruct (split sep a).
Qed.

Lemma forEach_nested_app {St} (step : St -> string -> St * list effect) (l1 l2 : list string)
    (st : St) :
  forEach step st (l1 ++ l2)
  = (let (st1, o1) := forEach step st l1 in
     let (st2, o2) := forEach step st1 l2 in (st2, (o1 ++ o2)%list)).
Proof.
  rewrite forEach_app. destruct (forEach step st l1) as [st1 o1]. cbn [fst snd].
  now destruct (forEach step st1 l2).
Qed.

(** The end of a chunk acts as a line feed: two successive chunks are read
    as the one chunk made of both with a line feed between them. *)
Lemma readAll_chunk_boundary {St} (step : St -> string -> St * list effect)
    (before after : list string) (c1 c2 : string) (st : St) :
  readAll step st (before ++ c1 :: c2 :: after)
  = readAll step st (before ++ (c1 ++ LF ++ c2) :: after).
Proof.
  unfold readAll. rewrite !forEach_nested_app.
  destruct (forEach _ st before) as [st0 o0]. cbn [forEach].
  unfold LF. change (String "010" "" ++ c2) with (String "010"%char c2).
  rewrite split_app, forEach_nested_app.
  destruct (forEach step st0 (split "010" c1)) as [st1 o1].
  destruct (forEach step st1 (split "010" c2)) as [st2 o2].
  destruct (forEach _ st2 after) as [st3 o3].
  now rewrite <- (app_assoc o1 o2 o3).
Qed.

(** X6.  No line is carried over from one chunk to the next: a streaming
    call behaves on two successive chunks exactly as on the single chunk
    made of both with a line feed between them, so a data line that arrives
    cut in two chunks is read as two lines. *)
Theorem chunk_boundary_is_a_line_feed :
  forall (p : provider) (parse : parser) (cfg : config)
         (text sourceLang targetLang systemPrompt userPrompt : string) (cb : callbacks)
         (r : response) (before after : list string) (c1 c2 : string),
    chunks r = (before ++ c1 :: c2 :: after)%list ->
    translateStream p parse (fun _ => Answer r) cfg text sourceLang targetLang systemPrompt
      userPrompt cb
    = translateStream p parse
        (fun _ => Answer {| status := status r; json := json r;
                            chunks := (before ++ (c1 ++ LF ++ c2)%string :: after)%list;
                            broken := broken r |})
        cfg text sourceLang targetLang systemPrompt userPrompt cb.
Proof.
  intros p parse cfg text sourceLang targetLang systemPrompt userPrompt cb r before after
    c1 c2 Hr.
  rewrite !translateStream_streaming.
  destruct (configurationError p cfg); [reflexivity|].
  unfold streaming, fetch, bind, readLines, ok. cbn [status chunks broken].
  rewrite Hr, readAll_chunk_boundary. reflexivity.
Qed.

Lemma chunk_boundary_is_a_line_feed_witness :
  translateStream OpenAI sampleParse
    (fun _ => Answer (delivering ["data: [DO"; "NE]"])) sampleConfig
    "Hi" "en" "ko" "sys" "{text}" allCallbacks
  = translateStream OpenAI sampleParse
      (fun _ => Answer {| status := 200; json := None;
                          chunks := ([] ++ ("data: [DO" ++ LF ++ "NE]")%string :: [])%list;
                          broken := None |})
      sampleConfig "Hi" "en" "ko" "sys" "{text}" allCallbacks.
Proof.
  apply (chunk_boundary_is_a_line_feed OpenAI sampleParse sampleConfig "Hi" "en" "ko" "sys"
           "{text}" allCallbacks (delivering ["data: [DO"; "NE]"]) [] [] "data: [DO" "NE]").
  reflexivity.
Defined.

(** X7.  A line that carries nothing to parse (a line without the data
    prefix in the event-stream loops, a blank line in the Ollama loop), or
    whose payload [JSON.parse] rejects, changes no local and invokes no
    callback; the lines around it are handled as if it were absent. *)
Theorem undecodable_line_is_skipped :
  forall (p : provider) (parse : parser) (cb : callbacks) (line : string),
    match payloadOf p line with
    | None => True
    | Some data => parse data = None
    end ->
    forall (st : localsOf p),
      lineOf p parse cb st line = (st, [])
      /\ forall before after,
          forEach (lineOf p parse cb) st (before ++ line :: after)
          = forEach (lineOf p parse cb) st (before ++ after).
Proof.
  intros p parse cb line H.
  assert (Hline : forall st : localsOf p, lineOf p parse cb st line = (st, [])).
  { intros st. destruct p; cbn [lineOf payloadOf] in *;
      unfold chatLine, ClaudeProvider.line, GeminiProvider.line, OllamaProvider.line,
        LlamaCppProvider.line;
      try (destruct (startsWith line "data: "); [|reflexivity]);
      try (destruct (trim line =? ""); [reflexivity|]);
      rewrite H;
      repeat match goal with |- context [if ?b then _ else _] => destruct b end;
      reflexivity. }
  intros st. split; [apply Hline|]. intros before after. now apply forEach_skip.
Qed.

Lemma undecodable_line_is_skipped_witness :
  lineOf Claude sampleParse allCallbacks (initOf Claude) "data: {broken" = (initOf Claude, [])
  /\ forall before after,
      forEach (lineOf Claude sampleParse allCallbacks) (initOf Claude)
        (before ++ "data: {broken" :: after)
      = forEach (lineOf Claude sampleParse allCallbacks) (initOf Claude) (before ++ after).
Proof.
  apply (undecodable_line_is_skipped Claude sampleParse allCallbacks "data: {broken").
  reflexivity.
Defined.



End StreamsMore.

Section FinalText.
Import JsString BaseProvider ProviderFactory.

Lemma last_snoc_if (l : list string) (x : string) (b : bool) (d : string) :
  b = true -> last (l ++ (if b then [x] else [])) d = x.
Proof. intros ->. apply last_last. Qed.

(** The loops that accumulate one text hold, at every point, the text last
    given to [onContent]. *)
Lemma single_text_last (step : string -> string -> string * list effect) (cb : callbacks) :
  onContent cb = true ->
  (forall st x, step st x = (st, [])
                \/ exists d, step st x = (st ++ d, emit (onContent cb) (OnContent (st ++ d)))) ->
  forall cs,
    fst (readAll step "" cs) = last (contents (snd (readAll step "" cs))) "".
Proof.
  intros Hcb Hstep cs.
  apply (readAll_invariant (fun st out => st = last (contents out) "") step); [|reflexivity].
  intros st out x Hinv. destruct (Hstep st x) as [H | [d H]]; rewrite H; cbn [fst snd].
  - now rewrite app_nil_r.
  - rewrite contents_app, contents_emit. symmetry. now apply last_snoc_if.
Qed.

Lemma claude_last parse cb cs :
  onContent cb = true ->
  ClaudeProvider.fullContent (fst (readAll (ClaudeProvider.line parse cb) (initOf Claude) cs))
  = last (contents (snd (readAll (ClaudeProvider.line parse cb) (initOf Claude) cs))) "".
Proof.
  intros Hcb.
  apply (readAll_invariant
           (fun st out => ClaudeProvider.fullContent st = last (contents out) "")
           (ClaudeProvider.line parse cb)); [|reflexivity].
  intros st out x Hinv. unfold ClaudeProvider.line.
  split_line; cbn [fst snd ClaudeProvider.fullContent ClaudeProvider.fullThinking];
    rewrite ?app_nil_r, ?contents_app, ?contents_emit, ?contents_emit_reasoning, ?app_nil_r;
    cbn [app]; rewrite ?app_nil_r; try assumption;
    symmetry; now apply last_snoc_if.
Qed.

(** X9.  In every class but llama.cpp, when a streaming call with an
    [onContent] callback returns, the text it returns is the last text given
    to [onContent], trimmed (the empty text when [onContent] was never
    invoked). *)
Theorem returned_text_is_last_content_trimmed :
  forall (p : provider) (parse : parser) (net : network) (cfg : config)
         (text sourceLang targetLang systemPrompt userPrompt : string) (cb : callbacks)
         (log : list effect) (v : string),
    p <> LlamaCpp ->
    onContent cb = true ->
    translateStream p parse net cfg text sourceLang targetLang systemPrompt userPrompt cb
      = (log, inr v) ->
    v = trim (last (contents log) "").
Proof.
  intros p parse net cfg text sourceLang targetLang systemPrompt userPrompt cb log v
    Hp Hcb Hrun.
  rewrite translateStream_streaming in Hrun.
  destruct (configurationError p cfg) as [e'|]; [discriminate|].
  destruct (streaming_cases net
              (requestOf p cfg true text sourceLang targetLang systemPrompt userPrompt)
              (refuseOf p) (lineOf p parse cb) (initOf p) (finishOf p) cb)
    as [(e0 & _ & H) | [(r & _ & _ & H) | [(r & e0 & _ & _ & _ & H) | (r & _ & _ & _ & H)]]];
    cbv zeta in H; rewrite H in Hrun; inversion Hrun; subst; clear Hrun.
  cbn [contents]. rewrite contents_app.
  replace (contents (emit (onDone cb) _)) with (@nil string) by (now destruct (onDone cb)).
  rewrite app_nil_r.
  destruct p; cbn [finishOf lineOf initOf fst]; try contradiction; f_equal.
  - apply (single_text_last _ cb Hcb (chatLine_step parse cb)).
  - now apply claude_last.
  - apply (single_text_last _ cb Hcb (gemini_step parse cb)).
  - apply (single_text_last _ cb Hcb (ollama_step parse cb)).
  - apply (single_text_last _ cb Hcb (chatLine_step parse cb)).
Qed.

Lemma returned_text_is_last_content_trimmed_witness :
  "x" = trim (last (contents
                      (fst (translateStream OpenAI sampleParse (serving sentinelThenData)
                              sampleConfig "Hi" "en" "ko" "sys" "{text}" allCallbacks))) "").
Proof.
  apply (returned_text_is_last_content_trimmed OpenAI sampleParse (serving sentinelThenData)
           sampleConfig "Hi" "en" "ko" "sys" "{text}" allCallbacks _ "x");
    [discriminate | reflexivity | reflexivity].
Defined.

(** The llama.cpp loop: the views delivered are those of texts that the
    accumulated text extends. *)
Lemma llama_stream_chain parse cb cs :
  exists texts,
    chain texts (LlamaCppProvider.fullText
                   (fst (readAll (LlamaCppProvider.line parse cb) (initOf LlamaCpp) cs)))
    /\ contents (snd (readAll (LlamaCppProvider.line parse cb) (initOf LlamaCpp) cs))
       = map shown texts.
Proof.
  apply (readAll_invariant
           (fun st out => exists texts,
                chain texts (LlamaCppProvider.fullText st)
                /\ contents out = map shown texts)
           (LlamaCppProvider.line parse cb)).
  - intros st out x (texts & Hch & Hc). rewrite contents_app, Hc.
    destruct (llama_step parse cb st x) as [[Hf Ho] | (d & Hf & Ho)]; rewrite Hf, Ho.
    + exists texts. split; [exact Hch | now rewrite app_nil_r].
    + exists (texts ++ (if onContent cb
                        then [(LlamaCppProvider.fullText st ++ d)%string] else []))%list.
      split; [now apply chain_emit|].
      rewrite map_app. now destruct (onContent cb).
  - exists []. split; [apply chain_nil | reflexivity].
Qed.

Lemma occursIn_extends (p a b : string) : extends a b -> occursIn p a -> occursIn p b.
Proof.
  intros [d ->] (x & y & ->). exists x, (y ++ d). now rewrite !append_assoc.
Qed.

Lemma llama_append_only_without_think parse cb cs :
  indexOf (LlamaCppProvider.fullText
             (fst (readAll (LlamaCppProvider.line parse cb) (initOf LlamaCpp) cs)))
          "<think>" = None ->
  appendOnly (contents (snd (readAll (LlamaCppProvider.line parse cb) (initOf LlamaCpp) cs))).
Proof.
  intros Hno. destruct (llama_stream_chain parse cb cs) as (texts & [Ha Hf] & Hc).
  rewrite Hc. replace (map shown texts) with texts; [exact Ha|].
  symmetry. rewrite <- (map_id texts) at 2. apply map_ext_in.
  intros t Ht. unfold shown, LlamaCppProvider.cut.
  rewrite Forall_forall in Hf. specialize (Hf t Ht).
  assert (Hnone : indexOf t "<think>" = None).
  { apply indexOf_none. intros Hocc. apply indexOf_none in Hno. apply Hno.
    now apply (occursIn_extends _ t). }
  now rewrite Hnone.
Qed.

(** X10.  In the llama.cpp class the content callbacks are append-only as
    long as no opening think marker has been received: when the text
    accumulated from the whole response holds no such marker, each argument
    of [onContent] extends the one before it. *)
Theorem llamacpp_append_only_without_think :
  forall (parse : parser) (net : network) (cfg : config)
         (text sourceLang targetLang systemPrompt userPrompt : string) (cb : callbacks),
    (forall r,
        net (requestOf LlamaCpp cfg true text sourceLang targetLang systemPrompt userPrompt)
          = Answer r ->
        indexOf (LlamaCppProvider.fullText
                   (fst (readAll (LlamaCppProvider.line parse cb) (initOf LlamaCpp) (chunks r))))
                "<think>" = None) ->
    appendOnly
      (contents (fst (translateStream LlamaCpp parse net cfg text sourceLang targetLang
                        systemPrompt userPrompt cb))).
Proof.
  intros parse net cfg text sourceLang targetLang systemPrompt userPrompt cb Hno.
  rewrite translateStream_streaming. cbn [configurationError].
  destruct (streaming_cases net
              (requestOf LlamaCpp cfg true text sourceLang targetLang systemPrompt userPrompt)
              (refuseOf LlamaCpp) (lineOf LlamaCpp parse cb) (initOf LlamaCpp)
              (finishOf LlamaCpp) cb)
    as [(e0 & _ & H) | [(r & _ & _ & H) | [(r & e0 & Hn & _ & _ & H) | (r & Hn & _ & _ & H)]]];
    cbv zeta in H; rewrite H; cbn [fst contents].
  - now destruct (onError cb).
  - now destruct (onError cb).
  - rewrite contents_app.
    replace (contents (emit (onError cb) _)) with (@nil string) by (now destruct (onError cb)).
    rewrite app_nil_r. apply llama_append_only_without_think. now apply Hno.
  - rewrite contents_app.
    replace (contents (emit (onDone cb) _)) with (@nil string) by (now destruct (onDone cb)).
    rewrite app_nil_r. apply llama_append_only_without_think. now apply Hno.
Qed.

Lemma llamacpp_append_only_without_think_witness :
  contents (fst (translateStream LlamaCpp sampleParse (serving helloThenX)
                   sampleConfig "Hi" "en" "ko" "sys" "{text}" allCallbacks))
  = ["Hello "; "Hello x"]
  /\ appendOnly
       (contents (fst (translateStream LlamaCpp sampleParse (serving helloThenX)
                         sampleConfig "Hi" "en" "ko" "sys" "{text}" allCallbacks))).
Proof.
  split; [reflexivity|].
  apply (llamacpp_append_only_without_think sampleParse (serving helloThenX)
           sampleConfig "Hi" "en" "ko" "sys" "{text}" allCallbacks).
  intros r Hr. inversion Hr. reflexivity.
Defined.

End FinalText.

(* ================================================================== *)
(** * Non-streaming calls, model listing and the factory *)
(* ================================================================== *)

Section Calls.
Import JsString BaseProvider ProviderFactory.



Lemma listModels_result (items : list Js.value) :
  LlamaCppProvider.listModels items
  = ([], if forallb (fun m => negb (Js.nullish m)) items
         then inr (map (fun m => {| LlamaCppProvider.value := Js.prop m "id";
                                    LlamaCppProvider.label := Js.prop m "id" |}) items)
         else inl TypeError).
Proof.
  induction items as [|m items IH]; [reflexivity|].
  cbn [LlamaCppProvider.listModels forallb map]. unfold Js.get.
  destruct (Js.nullish m); [reflexivity|]. cbn. rewrite IH.
  now destruct (forallb _ items).
Qed.

Lemma fetchModels_cases (net : network) (cfg : config) :
  exists models,
    LlamaCppProvider.fetchModels net cfg
      = ([Fetch (LlamaCppProvider.modelsRequest cfg)], inr models)
    /\ models <> []
    /\ (models = LlamaCppProvider.getDefaultModels
        \/ exists r data items,
            net (LlamaCppProvider.modelsRequest cfg) = Answer r
            /\ ok r = true
            /\ json r = Some data
            /\ Js.get data "data" = Some (Js.Array items)
            /\ models = map (fun m => {| LlamaCppProvider.value := Js.prop m "id";
                                         LlamaCppProvider.label := Js.prop m "id" |}) items).
Proof.
  unfold LlamaCppProvider.fetchModels, fetch.
  assert (Hdefault : LlamaCppProvider.getDefaultModels <> [])
    by (unfold LlamaCppProvider.getDefaultModels; discriminate).
  assert (Hfallback :
            exists models,
              ([Fetch (LlamaCppProvider.modelsRequest cfg)],
               @inr exn _ LlamaCppProvider.getDefaultModels)
              = ([Fetch (LlamaCppProvider.modelsRequest cfg)], inr models)
              /\ models <> []
              /\ (models = LlamaCppProvider.getDefaultModels
                  \/ exists r data items,
                      net (LlamaCppProvider.modelsRequest cfg) = Answer r
                      /\ ok r = true
                      /\ json r = Some data
                      /\ Js.get data "data" = Some (Js.Array items)
                      /\ models
                         = map (fun m => {| LlamaCppProvider.value := Js.prop m "id";
                                            LlamaCppProvider.label := Js.prop m "id" |})
                               items))
    by (exists LlamaCppProvider.getDefaultModels; split; [reflexivity|];
        split; [exact Hdefault | now left]).
  destruct (net (LlamaCppProvider.modelsRequest cfg)) as [e|r] eqn:Hnet;
    [exact Hfallback|].
  cbv [bind try_catch ret throw must readJson app negb].
  destruct (ok r) eqn:Hok; [|exact Hfallback].
  destruct (json r) as [data|] eqn:Hjson; [|exact Hfallback].
  destruct (Js.get data "data") as [entries|] eqn:Hdata; [|exact Hfallback].
  destruct entries as [| | | | | items | ]; try exact Hfallback.
  rewrite listModels_result.
  destruct (forallb (fun m => negb (Js.nullish m)) items); [|exact Hfallback].
  destruct items as [|m items]; [exact Hfallback|].
  eexists. split; [reflexivity|]. split; [discriminate|]. right.
  exists r, data, (m :: items). repeat split; assumption.
Qed.

(** X12.  Listing the models of a llama.cpp server never fails and never
    gives an empty list: it sends one GET request and returns either the
    one fallback entry or the entries of a 2xx answer.  When the answer is
    2xx and its body holds under [data] an array that is not empty and has
    no null element, the list has one entry per element, in order, with the
    element's [id] as value and label. *)
Theorem llamacpp_fetchModels_never_fails :
  forall (net : network) (cfg : config),
    (exists models,
        LlamaCppProvider.fetchModels net cfg
          = ([Fetch (LlamaCppProvider.modelsRequest cfg)], inr models)
        /\ models <> []
        /\ (models = LlamaCppProvider.getDefaultModels
            \/ exists r data items,
                net (LlamaCppProvider.modelsRequest cfg) = Answer r
                /\ ok r = true
                /\ json r = Some data
                /\ Js.get data "data" = Some (Js.Array items)
                /\ models = map (fun m => {| LlamaCppProvider.value := Js.prop m "id";
                                             LlamaCppProvider.label := Js.prop m "id" |})
                                items))
    /\ (forall r data items,
           net (LlamaCppProvider.modelsRequest cfg) = Answer r ->
           ok r = true ->
           json r = Some data ->
           Js.get data "data" = Some (Js.Array items) ->
           items <> [] ->
           forallb (fun m => negb (Js.nullish m)) items = true ->
           LlamaCppProvider.fetchModels net cfg
           = ([Fetch (LlamaCppProvider.modelsRequest cfg)],
              inr (map (fun m => {| LlamaCppProvider.value := Js.prop m "id";
                                    LlamaCppProvider.label := Js.prop m "id" |}) items))).
Proof.
  intros net cfg. split; [apply fetchModels_cases|].
  intros r data items Hnet Hok Hjson Hdata Hne Hall.
  unfold LlamaCppProvider.fetchModels, fetch. rewrite Hnet.
  cbv [bind try_catch ret throw must readJson app negb].
  rewrite Hok, Hjson, Hdata, listModels_result, Hall.
  destruct items; [congruence | reflexivity].
Qed.

Lemma llamacpp_fetchModels_never_fails_witness :
  LlamaCppProvider.fetchModels
    (fun _ => Answer {| status := 200;
                        json := Some (Js.Object
                                        [("data",
                                          Js.Array [Js.Object [("id", Js.Str "qwen3")]])]);
                        chunks := []; broken := None |})
    sampleConfig
  = ([Fetch (LlamaCppProvider.modelsRequest sampleConfig)],
     inr [ {| LlamaCppProvider.value := Js.Str "qwen3";
              LlamaCppProvider.label := Js.Str "qwen3" |} ]).
Proof.
  refine (proj2 (llamacpp_fetchModels_never_fails _ sampleConfig)
            {| status := 200;
               json := Some (Js.Object
                               [("data", Js.Array [Js.Object [("id", Js.Str "qwen3")]])]);
               chunks := []; broken := None |}
            (Js.Object [("data", Js.Array [Js.Object [("id", Js.Str "qwen3")]])])
            [Js.Object [("id", Js.Str "qwen3")]]
            eq_refl eq_refl eq_refl eq_refl _ eq_refl).
  discriminate.
Defined.

(** X13.  The factory knows exactly six identifiers: each gives an instance
    of its class, and any other text makes [create] fail with the error that
    names the unknown provider. *)
Theorem create_knows_six_identifiers :
  forall providerType : string,
    (forall p, create (identifier p) = inr p)
    /\ ((exists p, providerType = identifier p /\ create providerType = inr p)
        \/ ((forall p, providerType <> identifier p)
            /\ create providerType = inl (Error ("Unknown provider: " ++ providerType)))).
Proof.
  intros providerType. split; [intros []; reflexivity|].
  unfold create.
  destruct (String.eqb_spec providerType "openai") as [->|H1]; [left; now exists OpenAI|].
  destruct (String.eqb_spec providerType "claude") as [->|H2]; [left; now exists Claude|].
  destruct (String.eqb_spec providerType "gemini") as [->|H3]; [left; now exists Gemini|].
  destruct (String.eqb_spec providerType "ollama") as [->|H4]; [left; now exists Ollama|].
  destruct (String.eqb_spec providerType "llamacpp") as [->|H5]; [left; now exists LlamaCpp|].
  destruct (String.eqb_spec providerType "openai-compatible") as [->|H6];
    [left; now exists OpenAICompatible|].
  right. split; [|reflexivity]. intros []; assumption.
Qed.

End Calls.

(* ================================================================== *)
(** * Texts without placeholders or markers *)
(* ================================================================== *)

Section Untouched.
Import JsString BaseProvider.

Lemma headed_head (c x : ascii) (m : matcher) (s : string) :
  headed c m -> Ascii.eqb x c = false -> m (String x s) = None.
Proof.
  intros Hm Hx. destruct (m (String x s)) as [n|] eqn:H; [|reflexivity].
  destruct (Hm _ _ H) as [r Hr]. inversion Hr; subst.
  now rewrite Ascii.eqb_refl in Hx.
Qed.

Lemma headed_empty (c : ascii) (m : matcher) : headed c m -> m "" = None.
Proof.
  intros Hm. destruct (m "") as [n|] eqn:H; [|reflexivity].
  destruct (Hm _ _ H) as [r Hr]. discriminate.
Qed.

(** Through a prefix without the unit of a headed pattern the scan leaves
    every unit alone. *)
Lemma scan_free_prefix (c : ascii) (m : matcher) (a s : string) (f : string -> string) :
  headed c m -> free c a = true ->
  rebuild f (scan m 0 (a ++ s)) = a ++ rebuild f (scan m 0 s)
  /\ hits (scan m 0 (a ++ s)) = hits (scan m 0 s).
Proof.
  intros Hm. induction a as [|x a IH]; intros Ha; [now split|].
  cbn [free] in Ha. apply andb_true_iff in Ha as [Hx Ha]. apply negb_true_iff in Hx.
  cbn [append scan]. rewrite (headed_head c x m (a ++ s) Hm Hx).
  destruct (IH Ha) as [Hr Hh]. cbn [rebuild hits]. now rewrite Hr, Hh.
Qed.

Lemma quiet_of_free (c : ascii) (m : matcher) (s : string) :
  headed c m -> free c s = true -> quiet m s = true.
Proof.
  intros Hm. induction s as [|x s IH]; cbn [free quiet].
  - intros _. now rewrite (headed_empty c m Hm).
  - intros H. apply andb_true_iff in H as [Hx Hs]. apply negb_true_iff in Hx.
    rewrite (headed_head c x m s Hm Hx). now apply IH.
Qed.

Lemma substitute_no_hits (rep before : string) (ps : list piece) :
  hits ps = [] -> substitute rep before ps = text ps.
Proof.
  revert before. induction ps as [|[x|m] ps IH]; intros before H; cbn in *;
    [reflexivity | now rewrite IH | discriminate].
Qed.

(** Where the pattern matches nowhere, [replace] returns its subject,
    whatever the replacement string. *)
Lemma replaceAll_quiet (m : matcher) (rep s : string) :
  quiet m s = true -> replaceAll m rep s = s.
Proof.
  intros H. unfold replaceAll, pieces. destruct (scan_quiet m (fun x => x) s H) as [Ht Hh].
  now rewrite substitute_no_hits.
Qed.

Lemma lit_headed (c : ascii) (p : string) : headed c (lit (String c p)).
Proof.
  intros s n. unfold lit. destruct (String.prefix (String c p) s) eqn:H; [|discriminate].
  intros _. apply prefix_iff in H as [r ->]. now exists (p ++ r).
Qed.

Lemma foldUnit_brace (b : ascii) : Ascii.eqb (foldUnit "{") (foldUnit b) = true -> b = "{"%char.
Proof.
  destruct b as [[] [] [] [] [] [] [] []]; cbn; intros H; try discriminate; reflexivity.
Qed.

Lemma lit_ci_headed_brace (p : string) : headed "{" (lit_ci (String "{" p)).
Proof.
  intros s n. unfold lit_ci. destruct (prefix_ci (String "{" p) s) eqn:H; [|discriminate].
  intros _. destruct s as [|b s]; cbn [prefix_ci] in H; [discriminate|].
  apply andb_true_iff in H as [H _]. apply foldUnit_brace in H. subst. now exists s.
Qed.

Lemma rebuildBy_no_hits (f : string -> exn + string) (ps : list piece) :
  hits ps = [] -> rebuildBy f ps = inr (text ps).
Proof.
  induction ps as [|[x|m] ps IH]; intros H; cbn in *;
    [reflexivity | now rewrite IH | discriminate].
Qed.

(** Where the pattern matches nowhere, [replace] returns its subject,
    whatever the value given as replacement. *)
Lemma replaceBy_quiet (m : matcher) (value : name) (s : string) :
  quiet m s = true -> replaceBy m value s = inr s.
Proof.
  intros H. unfold replaceBy.
  destruct value as [v|member]; [now rewrite replaceAll_quiet|].
  destruct (replacer member) as [f|]; [|now rewrite replaceAll_quiet].
  unfold pieces. destruct (scan_quiet m (fun x => x) s H) as [Ht Hh].
  rewrite rebuildBy_no_hits by exact Hh. unfold text. now rewrite Ht.
Qed.

(** X14.  A template without any opening brace holds no placeholder: the
    prompt built from it is the template itself, whatever the text and the
    languages (a [$] in them, or the name of an inherited member,
    included). *)
Theorem buildPrompt_without_placeholder :
  forall text sourceLang targetLang userPrompt : string,
    free "{" userPrompt = true ->
    buildPrompt text sourceLang targetLang userPrompt = inr userPrompt.
Proof.
  intros text sourceLang targetLang userPrompt H. unfold buildPrompt.
  rewrite (replaceBy_quiet (lit "{source_lang}"))
    by (apply (quiet_of_free "{"); [apply lit_headed | exact H]).
  rewrite (replaceBy_quiet (lit "{target_lang}"))
    by (apply (quiet_of_free "{"); [apply lit_headed | exact H]).
  f_equal. apply replaceAll_quiet. apply (quiet_of_free "{"); [apply lit_headed | exact H].
Qed.

Lemma buildPrompt_without_placeholder_witness :
  buildPrompt "100$ & $&" "valueOf" "ko" "Translate, please." = inr "Translate, please.".
Proof.
  apply (buildPrompt_without_placeholder "100$ & $&" "valueOf" "ko" "Translate, please.").
  reflexivity.
Defined.

(** X15.  The find-and-replace utility leaves a text without any opening
    brace as it is, whatever the two words; and it replaces a user marker
    written in any letter case, standing between two texts without braces,
    by the user word, when that word is not empty and holds neither a brace
    nor a [$]. *)
Theorem convertText_replaces_user_marker :
  forall (a b marker userWord charWord : string),
    free "{" a = true -> free "{" b = true ->
    (CharUser.convertText a userWord charWord = a)
    /\ (prefix_ci "{{user}}" marker = true -> String.length marker = 8 ->
        userWord <> "" -> free "{" userWord = true -> free "$" userWord = true ->
        CharUser.convertText (a ++ marker ++ b) userWord charWord = a ++ userWord ++ b).
Proof.
  intros a b marker userWord charWord Ha Hb.
  assert (Hquiet : forall p s rep, free "{" s = true -> replaceAll (lit_ci (String "{" p)) rep s = s).
  { intros p s rep Hs. apply replaceAll_quiet.
    apply (quiet_of_free "{"); [apply lit_ci_headed_brace | exact Hs]. }
  assert (Hskip : forall s u c, free "{" s = true -> CharUser.convertText s u c = s).
  { intros s u c Hs. unfold CharUser.convertText.
    destruct (u =? ""); destruct (c =? ""); rewrite ?Hquiet; try reflexivity; try assumption.
    now rewrite Hquiet. }
  split; [now apply Hskip|].
  intros Hm Hlen Hne Hu Hd.
  assert (Hfirst : replaceAll (lit_ci "{{user}}") userWord (a ++ marker ++ b)
                   = a ++ userWord ++ b).
  { unfold replaceAll, pieces. rewrite substitute_free by exact Hd.
    rewrite (proj1 (scan_free_prefix "{" _ a (marker ++ b) _
                      (lit_ci_headed_brace "{user}}") Ha)).
    f_equal. destruct marker as [|x marker]; [discriminate|].
    cbn [append scan]. unfold lit_ci at 1.
    change (String x (marker ++ b)) with (String x marker ++ b).
    rewrite (prefix_ci_app _ _ b Hm). cbn [String.length rebuild].
    cbn [String.length] in Hlen.
    replace 7 with (String.length marker) by lia.
    rewrite scan_skip. f_equal.
    apply (scan_quiet _ _ b).
    apply (quiet_of_free "{"); [apply lit_ci_headed_brace | exact Hb]. }
  unfold CharUser.convertText.
  apply String.eqb_neq in Hne. rewrite Hne, Hfirst.
  destruct (charWord =? ""); [reflexivity|].
  apply Hquiet. now rewrite !free_app, Ha, Hu, Hb.
Qed.

Lemma convertText_replaces_user_marker_witness :
  CharUser.convertText ("Hi " ++ "{{User}}" ++ "!") "Ann" "Bob" = "Hi " ++ "Ann" ++ "!".
Proof.
  apply (convertText_replaces_user_marker "Hi " "!" "{{User}}" "Ann" "Bob");
    try reflexivity. discriminate.
Defined.

End Untouched.

(* ================================================================== *)
(** * Complete thinking blocks *)
(* ================================================================== *)

Section Blocks.
Import JsString LlamaCppProvider.

(** Before a [<] that nothing of [m1] precedes, the scan for [m2] leaves
    every unit alone. *)
Lemma scan_junction (m1 m2 : matcher) (a rest : string) (f : string -> string) :
  (forall x y, x <> "" -> m2 (x ++ String "<" y) <> None -> m1 x <> None) ->
  quiet m1 a = true ->
  rebuild f (scan m2 0 (a ++ String "<" rest)) = a ++ rebuild f (scan m2 0 (String "<" rest))
  /\ hits (scan m2 0 (a ++ String "<" rest)) = hits (scan m2 0 (String "<" rest)).
Proof.
  intros Hloc. induction a as [|c a IH]; intros Ha; [now split|].
  cbn [quiet] in Ha. destruct (m1 (String c a)) eqn:H1; [discriminate|].
  cbn [append]. change (scan m2 0 (String c (a ++ String "<" rest)))
    with (match m2 (String c (a ++ String "<" rest)) with
          | Some (S k) => Hit (take (S k) (String c (a ++ String "<" rest)))
                          :: scan m2 k (a ++ String "<" rest)
          | _ => Unit c :: scan m2 0 (a ++ String "<" rest)
          end).
  destruct (m2 (String c (a ++ String "<" rest))) as [n|] eqn:H2.
  - exfalso. apply (Hloc (String c a) rest); [discriminate | cbn; congruence | exact H1].
  - destruct (IH Ha) as [Hr Hh]. cbn [rebuild hits]. now rewrite Hr, Hh.
Qed.

Lemma indexOf_ci_junction (m1 : matcher) (p a rest : string) :
  (forall x y, x <> "" -> lit_ci p (x ++ String "<" y) <> None -> m1 x <> None) ->
  quiet m1 a = true -> prefix_ci p (String "<" rest) = true ->
  indexOf_ci (a ++ String "<" rest) p = Some (String.length a).
Proof.
  intros Hloc. induction a as [|c a IH]; intros Ha Hrest.
  - cbn [append indexOf_ci]. now rewrite Hrest.
  - cbn [append quiet indexOf_ci String.length] in *.
    destruct (m1 (String c a)) eqn:H1; [discriminate|].
    destruct (prefix_ci p (String c (a ++ String "<" rest))) eqn:H2.
    + exfalso. apply (Hloc (String c a) rest); [discriminate | | exact H1].
      unfold lit_ci. cbn [append]. now rewrite H2.
    + now rewrite IH.
Qed.

Lemma markerFree_parts (a b : string) :
  markerFree (a ++ b) = true -> markerFree a = true /\ markerFree b = true.
Proof.
  unfold markerFree. intros H.
  apply andb_true_iff in H as [H H3]. apply andb_true_iff in H as [H1 H2].
  split.
  - rewrite !(quiet_prefix _ a b) by (assumption || (intros x y; apply tag_app)).
    reflexivity.
  - now rewrite !(quiet_suffix _ a b).
Qed.

(** At a match the scan records it and resumes after it. *)
Lemma scan_hit (m : matcher) (x b : string) (f : string -> string) :
  x <> "" -> m (x ++ b) = Some (String.length x) ->
  rebuild f (scan m 0 (x ++ b)) = f x ++ rebuild f (scan m 0 b)
  /\ hits (scan m 0 (x ++ b)) = x :: hits (scan m 0 b).
Proof.
  destruct x as [|c a]; [congruence|]. intros _ H.
  cbn [append scan]. cbn [append String.length] in H. rewrite H, scan_skip.
  change (String c (a ++ b)) with (String c a ++ b).
  replace (S (String.length a)) with (String.length (String c a)) by reflexivity.
  rewrite take_app. now split.
Qed.

(** The block pattern at an opening marker whose first closing marker
    follows a marker-free text. *)
Lemma block_at (o c mid post : string) :
  prefix_ci "<think>" o = true -> String.length o = 7 ->
  prefix_ci "</think>" c = true -> String.length c = 8 ->
  quiet (tag true "think") mid = true ->
  block "think" ((o ++ mid ++ c) ++ post) = Some (String.length (o ++ mid ++ c)).
Proof.
  intros Ho Hlo Hc Hlc Hi.
  destruct (prefix_ci_lt _ _ Hc) as [c' ->].
  assert (Hidx : indexOf_ci (mid ++ String "<" (c' ++ post)) "</think>"
                 = Some (String.length mid)).
  { apply (indexOf_ci_junction (tag true "think")); [| exact Hi |].
    - intros x y Hx H. apply tag_some. left.
      apply (prefix_ci_local _ x y); [reflexivity | exact Hx |].
      unfold lit_ci in H. cbn [append].
      destruct (prefix_ci "</think>" (x ++ String "<" y)); congruence.
    - exact (prefix_ci_app _ _ post Hc). }
  unfold block. change ("<" ++ "think" ++ ">") with "<think>".
  change ("</" ++ "think" ++ ">") with "</think>".
  rewrite !append_assoc. rewrite (prefix_ci_app _ _ _ Ho).
  change (String.length "<think>") with 7. rewrite <- Hlo at 1. rewrite drop_app.
  cbn [append]. rewrite Hidx. rewrite <- !append_assoc, !append_length, Hlo, Hlc.
  reflexivity.
Qed.

(** The scan of a buffer that holds one complete think block. *)
Lemma complete_block_scan (pre o mid c post : string) (f : string -> string) :
  prefix_ci "<think>" o = true -> String.length o = 7 ->
  prefix_ci "</think>" c = true -> String.length c = 8 ->
  markerFree pre = true -> markerFree mid = true -> markerFree post = true ->
  rebuild f (pieces (block "think") (pre ++ (o ++ mid ++ c) ++ post))
  = pre ++ f (o ++ mid ++ c) ++ post
  /\ hits (pieces (block "think") (pre ++ (o ++ mid ++ c) ++ post)) = [o ++ mid ++ c].
Proof.
  intros Ho Hlo Hc Hlc Hpre Hmid Hpost. unfold pieces.
  destruct (markerFree_quiet pre Hpre) as (Hp1 & _).
  destruct (markerFree_quiet mid Hmid) as (Hi1 & _).
  destruct (markerFree_quiet post Hpost) as (_ & _ & _ & Hpb & _).
  pose proof (block_at o c mid post Ho Hlo Hc Hlc Hi1) as Hb.
  assert (Hne : o ++ mid ++ c <> "") by (destruct o; [discriminate Hlo | discriminate]).
  destruct (scan_hit (block "think") (o ++ mid ++ c) post f Hne Hb) as [Hr' Hh'].
  destruct (scan_quiet (block "think") f post Hpb) as [Hq Hq'].
  rewrite Hq in Hr'. rewrite Hq' in Hh'.
  destruct (prefix_ci_lt _ _ Ho) as [o' Ho'].
  remember (o ++ mid ++ c) as m eqn:Hm.
  assert (Hshape : exists rest, m ++ post = String "<" rest).
  { subst m o. cbn [append]. eauto. }
  destruct Hshape as [rest Hrest]. rewrite Hrest in *.
  destruct (scan_junction (tag true "think") (block "think") pre rest f)
    as [Hr Hh]; [intros x y; now apply block_local | exact Hp1 |].
  now rewrite Hr, Hh, Hr', Hh'.
Qed.

(** X16.  A buffer made of a text, one complete [<think>] block in any
    letter case whose inside holds no marker, and a text after it, where
    the two texts joined hold no marker either: the inside of the block,
    trimmed, is the reasoning, and the two texts joined, trimmed, are the
    visible output. *)
Theorem complete_think_block_is_moved (pre o mid c post : string) :
  prefix_ci "<think>" o = true -> String.length o = 7 ->
  prefix_ci "</think>" c = true -> String.length c = 8 ->
  markerFree mid = true -> markerFree (pre ++ post) = true ->
  separateThinking (pre ++ o ++ mid ++ c ++ post)
  = {| thinking := trim mid; output := trim (pre ++ post) |}.
Proof.
  intros Ho Hlo Hc Hlc Hmid Hboth.
  destruct (markerFree_parts pre post Hboth) as [Hpre Hpost].
  replace (pre ++ o ++ mid ++ c ++ post) with (pre ++ (o ++ mid ++ c) ++ post)
    by (now rewrite !append_assoc).
  destruct (complete_block_scan pre o mid c post (fun _ => "") Ho Hlo Hc Hlc Hpre Hmid Hpost)
    as [Hr Hh].
  destruct (markerFree_quiet _ Hboth) as (H1 & _ & _ & _ & _ & _ & _ & Hl & _).
  pose proof (markerFree_trim _ Hboth) as Htrim.
  destruct (markerFree_quiet _ Htrim) as (_ & T2 & T3 & _ & B2 & B3 & _).
  assert (Hin : inner "think" (o ++ mid ++ c) = mid).
  { unfold LlamaCppProvider.inner. rewrite !append_length, Hlo, Hlc.
    change (String.length "think" + 2) with 7. change (String.length "think" + 3) with 8.
    replace (drop 7 (o ++ mid ++ c)) with (mid ++ c)
      by (rewrite <- Hlo; now rewrite drop_app).
    replace (7 + (String.length mid + 8) - 7 - 8) with (String.length mid) by lia.
    apply take_app. }
  assert (Hrem : remove (block "think") (pre ++ (o ++ mid ++ c) ++ post) = pre ++ post)
    by exact Hr.
  unfold separateThinking.
  rewrite Hh, Hrem, (lastIndexOf_quiet _ _ Hl). cbv zeta iota beta.
  rewrite (remove_quiet _ _ H1).
  rewrite (hits_quiet _ _ B2), (remove_quiet _ _ B2).
  rewrite (hits_quiet _ _ B3), (remove_quiet _ _ B3).
  rewrite (remove_quiet _ _ T2), (remove_quiet _ _ T3).
  cbn [map joined String.concat]. rewrite Hin, !append_nil_r, trim_idem. reflexivity.
Qed.

Lemma complete_think_block_is_moved_witness :
  separateThinking ("Hello " ++ "<THINK>" ++ " plan " ++ "</Think>" ++ "world ")
  = {| thinking := trim " plan "; output := trim ("Hello " ++ "world ") |}.
Proof.
  apply complete_think_block_is_moved; reflexivity.
Defined.

End Blocks.

(* ================================================================== *)
(** * What the filter leaves and what it cannot add *)
(* ================================================================== *)

Section Filter.
Import JsString LlamaCppProvider.

Lemma take_length (n : nat) (s : string) : String.length (take n s) <= String.length s.
Proof.
  revert n. induction s as [|c s IH]; intros [|n]; cbn [take String.length]; try lia.
  specialize (IH n). lia.
Qed.

Lemma trim_length (s : string) : String.length (trim s) <= String.length s.
Proof.
  unfold trim.
  destruct (trimStart_suffix s) as [w Hw].
  destruct (trimEnd_prefix (trimStart s)) as [w' Hw'].
  rewrite Hw at 2. rewrite Hw' at 2. rewrite !append_length. lia.
Qed.

Lemma scan_length (m : matcher) (k : nat) (s : string) :
  String.length (rebuild (fun _ => "") (scan m k s)) <= String.length s.
Proof.
  revert k. induction s as [|c s IH]; intros k; [cbn; lia|].
  cbn [scan String.length]. destruct k as [|k].
  - destruct (m (String c s)) as [[|n]|]; cbn [rebuild append String.length].
    + specialize (IH 0). lia.
    + specialize (IH n). lia.
    + specialize (IH 0). lia.
  - specialize (IH k). lia.
Qed.

Lemma remove_length (m : matcher) (s : string) :
  String.length (remove m s) <= String.length s.
Proof. apply scan_length. Qed.

(** X17.  A text without any marker passes the filter unchanged but for the
    white space at its two ends, and gives no reasoning. *)
Theorem marker_free_text_is_only_trimmed (v : string) :
  markerFree v = true ->
  separateThinking v = {| thinking := ""; output := trim v |}.
Proof.
  intros H.
  destruct (markerFree_quiet v H) as (H1 & _ & _ & B1 & _ & _ & _ & Hl & _).
  destruct (markerFree_quiet _ (markerFree_trim v H)) as (_ & T2 & T3 & _ & B2 & B3 & _).
  unfold separateThinking.
  rewrite (hits_quiet _ _ B1), (remove_quiet _ _ B1), (lastIndexOf_quiet _ _ Hl).
  cbv zeta iota beta.
  rewrite (remove_quiet _ _ H1).
  rewrite (hits_quiet _ _ B2), (remove_quiet _ _ B2).
  rewrite (hits_quiet _ _ B3), (remove_quiet _ _ B3).
  rewrite (remove_quiet _ _ T2), (remove_quiet _ _ T3), trim_idem.
  reflexivity.
Qed.

Lemma marker_free_text_is_only_trimmed_witness :
  separateThinking " 2 < 3 and <b>bold</b> " = {| thinking := ""; output := trim " 2 < 3 and <b>bold</b> " |}.
Proof.
  apply marker_free_text_is_only_trimmed. reflexivity.
Defined.

(** X18.  The filter only removes: for every text, the visible output is
    trimmed and is never longer than the text. *)
Theorem filter_never_lengthens (text : string) :
  trim (filterThinkingBlocks text) = filterThinkingBlocks text
  /\ String.length (filterThinkingBlocks text) <= String.length text.
Proof.
  split; [apply output_trimmed|].
  unfold filterThinkingBlocks, separateThinking.
  pose proof (remove_length (block "think") text) as H0.
  set (o0 := remove (block "think") text) in *.
  match goal with |- context [let (_, _) := ?E in _] => remember E as cut eqn:Hcut end.
  assert (Hc : String.length (snd cut) <= String.length o0).
  { subst cut. destruct (lastIndexOf o0 "<think>") as [i|]; [|cbn; lia].
    destruct (match lastIndexOf o0 "</think>" with
              | Some j => (j <? i)%nat
              | None => true
              end); cbn [snd]; [apply take_length | lia]. }
  clear Hcut. destruct cut as [t o]. cbn [snd] in Hc. cbn [output].
  repeat (eapply Nat.le_trans; [first [apply trim_length | apply remove_length]|]).
  lia.
Qed.

End Filter.

(* ================================================================== *)
(** * When the prompt cannot be built *)
(* ================================================================== *)

Section Inherited.
Import JsString BaseProvider.

Lemma rebuildBy_returns (f : string -> exn + string) (ps : list piece) :
  (forall m, exists v, f m = inr v) -> exists r, rebuildBy f ps = inr r.
Proof.
  intros Hf. induction ps as [|[c|m] ps [r IH]]; cbn [rebuildBy].
  - now exists "".
  - rewrite IH. now exists (String c r).
  - destruct (Hf m) as [v Hv]. rewrite Hv, IH. now exists (v ++ r).
Qed.

Lemma rebuildBy_error (f : string -> exn + string) (ps : list piece) (e : exn) :
  (forall m e', f m = inl e' -> e' = TypeError) -> rebuildBy f ps = inl e -> e = TypeError.
Proof.
  intros Hf. induction ps as [|[c|m] ps IH]; cbn [rebuildBy]; [discriminate| |].
  - destruct (rebuildBy f ps); [|discriminate]. intros H. inversion H; subst. now apply IH.
  - destruct (f m) as [e'|v] eqn:Hm.
    + intros H. inversion H; subst. now apply (Hf m).
    + destruct (rebuildBy f ps); [|discriminate]. intros H. inversion H; subst. now apply IH.
Qed.

Lemma replaceBy_error (re : matcher) (value : name) (s : string) (e : exn) :
  replaceBy re value s = inl e ->
  e = TypeError /\ exists n, value = Inherited (Method n).
Proof.
  unfold replaceBy. destruct value as [v|[| | |n|]]; cbn [replacer]; try discriminate.
  - intros H. destruct (rebuildBy_returns (fun matched => inr matched) (pieces re s))
      as [r Hr]; [intros m; now exists m | congruence].
  - intros H. destruct (rebuildBy_returns (fun _ => inr "[object Undefined]") (pieces re s))
      as [r Hr]; [intros m; now eexists | congruence].
  - intros H. destruct (rebuildBy_returns (fun _ => inr "false") (pieces re s))
      as [r Hr]; [intros m; now eexists | congruence].
  - intros H. split; [|now exists n].
    apply (rebuildBy_error (fun _ => inl TypeError) (pieces re s)); [|exact H].
    intros m e' He. now inversion He.
Qed.

(** A replacer that throws does so at the leftmost occurrence. *)
Lemma rebuildBy_throws (p s : string) :
  p <> "" -> occursIn p s ->
  rebuildBy (fun _ => inl TypeError) (pieces (lit p) s) = inl TypeError.
Proof.
  intros Hp Hocc. unfold pieces.
  destruct (indexOf s p) as [k|] eqn:Hk; [|now apply indexOf_none in Hk].
  destruct (indexOf_some p s k Hk) as (a & b & -> & <- & _). clear Hocc.
  induction a as [|c a IH].
  - destruct p as [|x p]; [congruence|]. cbn [append scan]. unfold lit at 1.
    assert (Hpre : String.prefix (String x p) (String x (p ++ b)) = true)
      by (apply prefix_iff; now exists b).
    rewrite Hpre. reflexivity.
  - cbn [append indexOf String.length] in Hk.
    destruct (String.prefix p (String c (a ++ p ++ b))) eqn:Hpre; [discriminate|].
    destruct (indexOf (a ++ p ++ b) p) as [j|] eqn:Hj; [|discriminate].
    cbn in Hk. inversion Hk; subst j.
    cbn [append scan]. unfold lit at 1. rewrite Hpre. cbn [rebuildBy].
    now rewrite IH.
Qed.

(** X20.  Building the prompt can only fail with a [TypeError], and only
    for a language code that names one of the methods every object
    inherits and that need an object as [this] ([valueOf],
    [hasOwnProperty] and the like): for every other pair of codes a prompt
    is returned, and for a source code of that kind the call throws as soon
    as the template holds the source placeholder. *)
Theorem buildPrompt_fails_only_on_inherited_method :
  forall text sourceLang targetLang userPrompt : string,
    (forall e,
        buildPrompt text sourceLang targetLang userPrompt = inl e ->
        e = TypeError
        /\ exists n, inherited sourceLang = Some (Method n)
                     \/ inherited targetLang = Some (Method n))
    /\ (forall n,
           inherited sourceLang = Some (Method n) ->
           occursIn "{source_lang}" userPrompt ->
           buildPrompt text sourceLang targetLang userPrompt = inl TypeError).
Proof.
  intros text sourceLang targetLang userPrompt.
  assert (Hname : forall code n,
             getLanguageName code = Inherited (Method n) -> inherited code = Some (Method n)).
  { intros code n. unfold getLanguageName.
    destruct (entry languages code); destruct (inherited code); congruence. }
  split.
  - intros e. unfold buildPrompt.
    destruct (replaceBy (lit "{source_lang}") (getLanguageName sourceLang) userPrompt)
      as [e1|s1] eqn:H1.
    + intros H. inversion H; subst e1.
      destruct (replaceBy_error _ _ _ _ H1) as [-> [n Hn]].
      split; [reflexivity|]. exists n. left. now apply Hname.
    + destruct (replaceBy (lit "{target_lang}") (getLanguageName targetLang) s1)
        as [e2|s2] eqn:H2; [|discriminate].
      intros H. inversion H; subst e2.
      destruct (replaceBy_error _ _ _ _ H2) as [-> [n Hn]].
      split; [reflexivity|]. exists n. right. now apply Hname.
  - intros n Hn Hocc. unfold buildPrompt, getLanguageName. rewrite Hn.
    assert (Hown : entry languages sourceLang = None).
    { unfold inherited in Hn.
      repeat match type of Hn with
             | (if ?b then _ else _) = _ => destruct b eqn:?; [try discriminate|]
             end; [|discriminate].
      match goal with H : existsb _ _ = true |- _ => rename H into Hex end.
      cbn [existsb] in Hex.
      repeat (apply orb_true_iff in Hex as [Hex|Hex];
              [apply String.eqb_eq in Hex; subst; reflexivity|]).
      discriminate. }
    rewrite Hown. cbn [replaceBy replacer].
    rewrite rebuildBy_throws; [reflexivity | discriminate | exact Hocc].
Qed.

Lemma buildPrompt_fails_only_on_inherited_method_witness :
  buildPrompt "Hi" "valueOf" "ko" "From {source_lang}: {text}" = inl TypeError.
Proof.
  apply (proj2 (buildPrompt_fails_only_on_inherited_method "Hi" "valueOf" "ko"
                  "From {source_lang}: {text}") "valueOf"); [reflexivity|].
  exists "From ", ": {text}". reflexivity.
Defined.

End Inherited.
